(** * Verification of the Treble manifest splitter and the NsJail runner

    [split/manifest_split.py] is exercised by [split/manifest_split_test.py];
    [build/sandbox/nsjail.py] builds and runs the sandbox command.

    Strings are [String.string]; Python dicts keyed by strings are stdpp's
    [gmap string _], Python sets of strings are [gset string]. *)

From Stdlib Require Import Ascii String ZArith.
From Stdlib Require Import Numbers.DecimalString.
From stdpp Require Import base gmap sets list strings.

Open Scope string_scope.

(* ===================================================================== *)
(** ** Path segments: [str.split('/')] and ['/'.join(...)] *)
(* ===================================================================== *)

Module Path.

Definition slash : ascii := "/"%char.

(** [s.split('/')] in Python: always at least one segment. *)
Fixpoint split_slash (s : string) : list string :=
  match s with
  | EmptyString => [""]
  | String c s' =>
      let r := split_slash s' in
      if Ascii.eqb c slash then "" :: r
      else match r with
           | h :: t => String c h :: t
           | [] => [String c ""]
           end
  end.

(** ['/'.join(l)] in Python. *)
Fixpoint join_slash (l : list string) : string :=
  match l with
  | [] => ""
  | [x] => x
  | x :: xs => x ++ String slash (join_slash xs)
  end.

Fixpoint has_slash (s : string) : bool :=
  match s with
  | EmptyString => false
  | String c s' => Ascii.eqb c slash || has_slash s'
  end.

(** [s.startswith(pre)] in Python. *)
Fixpoint startswith (s pre : string) : bool :=
  match pre, s with
  | EmptyString, _ => true
  | String c pre', String d s' => Ascii.eqb c d && startswith s' pre'
  | String _ _, EmptyString => false
  end.

End Path.

Import Path.

(* ===================================================================== *)
(** ** manifest_split: repo projects and path resolution *)
(* ===================================================================== *)

Module ManifestSplit.

(** [repo_projects]: repo-path -> project name (the dict built by
    [get_repo_projects]). *)
Abbreviation repo_index := (gmap string string).

(** Candidate repo-paths tried by [scan_repo_projects]: the path's first
    [i] segments, for [i] from the number of segments down to 1. *)
Fixpoint scan_from (repo_projects : repo_index) (parts : list string) (i : nat)
  : option string :=
  match i with
  | O => None
  | S j =>
      let project_path := join_slash (firstn (S j) parts) in
      match repo_projects !! project_path with
      | Some _ => Some project_path
      | None => scan_from repo_projects parts j
      end
  end.

(** Modelled from the spec: [manifest_split.scan_repo_projects], absent
    from src/.  Longest segment-wise prefix of [input_path] that is a key
    of [repo_projects] (spec 4.4).  The value returned is the matched
    repo-path key itself, as [test_scan_repo_projects] asserts
    ([scan_repo_projects(repo_projects, 'system/project1/path/to/file.h')
    == 'system/project1']), or [None]. *)
Definition scan_repo_projects (repo_projects : repo_index) (input_path : string)
  : option string :=
  let parts := split_slash input_path in
  scan_from repo_projects parts (length parts).

(** The key [k] is a segment-wise prefix of the path [p]. *)
Definition seg_prefix (k p : string) : Prop :=
  split_slash k `prefix_of` split_slash p.

(** The project name owning [input_path]: [repo_projects[project_path]]
    for the repo-path found by [scan_repo_projects]. *)
Definition project_of (repo_projects : repo_index) (input_path : string)
  : option string :=
  project_path ← scan_repo_projects repo_projects input_path;
  repo_projects !! project_path.

(** Modelled from the spec: [manifest_split.get_input_projects], absent
    from src/ (spec 4.5): the set of project names owning some input path;
    paths that resolve to no project are dropped. *)
Definition get_input_projects (repo_projects : repo_index) (inputs : list string)
  : gset string :=
  list_to_set (omap (project_of repo_projects) inputs).

(** [ValueError] of [get_module_info]: the offending target and path. *)
Inductive module_info_error :=
| InconsistentIndexError (target path : string).

(** [project_modules]: project name -> set of target names. *)
Abbreviation project_modules := (gmap string (gset string)).

(** [project_modules.setdefault(project, set()).add(target)] *)
Definition add_module (project target : string) (m : project_modules)
  : project_modules :=
  <[project := {[target]} ∪ default ∅ (m !! project)]> m.

(** The paths of one target, in order. *)
Fixpoint add_module_paths (repo_projects : repo_index) (target : string)
    (paths : list string) (m : project_modules)
  : module_info_error + project_modules :=
  match paths with
  | [] => inr m
  | path :: rest =>
      match project_of repo_projects path with
      | Some project => add_module_paths repo_projects target rest (add_module project target m)
      | None =>
          if startswith path "out/"
          then add_module_paths repo_projects target rest m
          else inl (InconsistentIndexError target path)
      end
  end.

(** The targets of the module-info table, in order. *)
Fixpoint add_modules (repo_projects : repo_index)
    (module_info : list (string * list string)) (m : project_modules)
  : module_info_error + project_modules :=
  match module_info with
  | [] => inr m
  | (target, paths) :: rest =>
      match add_module_paths repo_projects target paths m with
      | inl e => inl e
      | inr m' => add_modules repo_projects rest m'
      end
  end.

(** Modelled from the spec: [manifest_split.get_module_info], absent from
    src/ (spec 4.3).  [module_info] is the parsed JSON object, as
    (target, its ["path"] list) pairs.  Every path is resolved with
    [scan_repo_projects]; the target is added to the owning project's set.
    A path that resolves to no project raises [ValueError] naming the
    target and path, except a path under [out/], which is skipped:
    [test_get_module_info] expects success, without [target2], on a table
    whose [target2] has the unresolvable path [out/project2] (spec 9). *)
Definition get_module_info (repo_projects : repo_index)
    (module_info : list (string * list string))
  : module_info_error + project_modules :=
  add_modules repo_projects module_info ∅.

(** The targets recorded for [project] ([set()] when absent). *)
Definition targets (m : project_modules) (project : string) : gset string :=
  default ∅ (m !! project).

(** Every recorded project has at least one target. *)
Definition nonempty_sets (m : project_modules) : Prop :=
  forall project s, m !! project = Some s -> s <> ∅.

(** A path that [get_module_info] rejects. *)
Definition unresolved (repo_projects : gmap string string) (path : string) : Prop :=
  project_of repo_projects path = None /\ startswith path "out/" = false.

End ManifestSplit.

(* ===================================================================== *)
(** ** manifest_split: XML documents *)
(* ===================================================================== *)

Module ManifestXml.

#[local] Set Warnings "-register-all".

(** An [xml.etree.ElementTree.Element]: tag, attributes in document order,
    child elements.  Text and tails are not modelled. *)
Inductive element :=
| Element (tag : string) (attrib : list (string * string)) (children : list element).

Definition tag (e : element) : string := let 'Element t _ _ := e in t.
Definition attrib (e : element) : list (string * string) := let 'Element _ a _ := e in a.
Definition children (e : element) : list element := let 'Element _ _ c := e in c.

(** [e.get(key)] *)
Fixpoint attr_lookup (key : string) (a : list (string * string)) : option string :=
  match a with
  | [] => None
  | (k, v) :: rest => if String.eqb k key then Some v else attr_lookup key rest
  end.

Definition get (e : element) (key : string) : option string := attr_lookup key (attrib e).

(** A [project] element. *)
Definition is_project (c : element) : bool := String.eqb (tag c) "project".

(** The [name] attribute of [c] is in [s]. *)
Definition name_in (s : gset string) (c : element) : bool :=
  match get c "name" with
  | Some name => bool_decide (name ∈ s)
  | None => false
  end.

(** [root.append(child)] *)
Definition append (root child : element) : element :=
  Element (tag root) (attrib root) (children root ++ [child])%list.

(** The library functions the module relies on: [ET.fromstring] (a parse
    error is [None]), [ET.tostring], and [sha1(...).hexdigest()]. *)
Class ElementTreeLib := {
  fromstring : string -> option element;
  tostring : element -> string
}.

Class HashLib := {
  sha1_hexdigest : string -> string
}.

Inductive config_error := ParseError.

(** The [name] attributes of the children of [root] tagged [t]. *)
Definition child_names (t : string) (root : element) : gset string :=
  list_to_set (omap (fun c => if String.eqb (tag c) t then get c "name" else None)
                    (children root)).

(** Modelled from the spec: [manifest_split.read_config], absent from src/
    (spec 4.1): [(remove_projects, add_projects)], the [name] attributes of
    the [remove_project] and [add_project] children of the config root. *)
Definition read_config_root (root : element) : gset string * gset string :=
  (child_names "remove_project" root, child_names "add_project" root).

Definition read_config `{ElementTreeLib} (config : string)
  : config_error + (gset string * gset string) :=
  match fromstring config with
  | None => inl ParseError
  | Some root => inr (read_config_root root)
  end.

(** A child survives [update_manifest]: a [project] element survives when
    its [name] is in [input_projects] and not in [remove_projects];
    other elements are kept. *)
Definition keep_child (input_projects remove_projects : gset string) (c : element) : bool :=
  if String.eqb (tag c) "project" then
    match get c "name" with
    | Some name => bool_decide (name ∈ input_projects /\ name ∉ remove_projects)
    | None => false
    end
  else true.

(** Modelled from the spec: [manifest_split.update_manifest], absent from
    src/ (spec 4.6): removes from the root every [project] element whose
    [name] is not in [input_projects] or is in [remove_projects]. *)
Definition update_manifest (manifest : element) (input_projects remove_projects : gset string)
  : element :=
  Element (tag manifest) (attrib manifest)
    (List.filter (keep_child input_projects remove_projects) (children manifest)).

(** Modelled from the spec: [manifest_split.create_manifest_sha1_element],
    absent from src/ (spec 4.7): the [hash] element over
    [ET.tostring(manifest.getroot())]. *)
Definition create_manifest_sha1_element `{ElementTreeLib} `{HashLib}
    (manifest : element) (manifest_name : string) : element :=
  Element "hash"
    [("name", manifest_name); ("type", "sha1");
     ("value", sha1_hexdigest (tostring manifest))] [].

(** The last step of [split_manifest] (spec 4.7): the hash element is
    computed first, then appended to the root. *)
Definition add_manifest_sha1 `{ElementTreeLib} `{HashLib}
    (manifest : element) (manifest_name : string) : element :=
  let manifest_sha1_element := create_manifest_sha1_element manifest manifest_name in
  append manifest manifest_sha1_element.

End ManifestXml.

(* ===================================================================== *)
(** ** posixpath and str helpers used by nsjail.py *)
(* ===================================================================== *)

Module PosixPath.

(** [s.endswith('/')] *)
Definition endswith_slash (s : string) : bool :=
  match last (list_ascii_of_string s) with
  | Some c => Ascii.eqb c slash
  | None => false
  end.

(** [os.path.isabs(s)] *)
Definition isabs (s : string) : bool := startswith s "/".

(** [os.path.join(a, b)] for one more component. *)
Definition join2 (a b : string) : string :=
  if startswith b "/" then b
  else if String.eqb a "" || endswith_slash a then a ++ b
  else a ++ String slash b.

(** [os.path.join(a, *p)] *)
Definition join (a : string) (p : list string) : string := fold_left join2 p a.

Fixpoint slashes (n : nat) : string :=
  match n with
  | O => ""
  | S n' => String slash (slashes n')
  end.

(** One step of the component loop of [posixpath.normpath]. *)
Definition normpath_step (initial_slashes : nat) (new_comps : list string) (comp : string)
  : list string :=
  if String.eqb comp "" || String.eqb comp "." then new_comps
  else if negb (String.eqb comp "..")
          || (Nat.eqb initial_slashes 0 && bool_decide (new_comps = []))
          || bool_decide (last new_comps = Some "..")
  then (new_comps ++ [comp])%list
  else match new_comps with
       | [] => new_comps
       | _ => removelast new_comps
       end.

(** [os.path.normpath(path)] *)
Definition normpath (path : string) : string :=
  if String.eqb path "" then "." else
  let initial_slashes :=
    if startswith path "/" then
      if startswith path "//" && negb (startswith path "///") then 2 else 1
    else 0 in
  let comps := fold_left (normpath_step initial_slashes) (split_slash path) [] in
  let path' := slashes initial_slashes ++ join_slash comps in
  if String.eqb path' "" then "." else path'.

(** [os.path.abspath(path)], with [cwd] the result of [os.getcwd()]. *)
Definition abspath (cwd path : string) : string :=
  normpath (if isabs path then path else join2 cwd path).

Fixpoint drop_slashes (l : list ascii) : list ascii :=
  match l with
  | c :: l' => if Ascii.eqb c slash then drop_slashes l' else l
  | [] => []
  end.

(** [s.rstrip('/')] *)
Definition rstrip_slash (s : string) : string :=
  string_of_list_ascii (rev (drop_slashes (rev (list_ascii_of_string s)))).

(** [os.path.dirname(p)] *)
Definition dirname (p : string) : string :=
  let parts := split_slash p in
  let head := match parts with
              | [_] => ""
              | _ => join_slash (removelast parts) ++ "/"
              end in
  if negb (String.eqb head "")
     && negb (forallb (fun c => Ascii.eqb c slash) (list_ascii_of_string head))
  then rstrip_slash head else head.

(** [os.path.basename(p)] *)
Definition basename (p : string) : string :=
  default "" (last (split_slash p)).

(** [s.lower()] on ASCII letters. *)
Definition lower_char (c : ascii) : ascii :=
  let n := nat_of_ascii c in
  if (65 <=? n)%nat && (n <=? 90)%nat then ascii_of_nat (n + 32)%nat else c.

Definition lower (s : string) : string :=
  string_of_list_ascii (map lower_char (list_ascii_of_string s)).

(** [pat in s] *)
Fixpoint contains (s pat : string) : bool :=
  startswith s pat ||
  match s with
  | EmptyString => false
  | String _ s' => contains s' pat
  end.

(** [re.match(r'adb.*fork-server.*', line)] *)
Definition adb_fork_server_match (line : string) : bool :=
  startswith line "adb" && contains (substring 3 (String.length line) line) "fork-server".

(** ['%i' % n] *)
Definition format_int (n : Z) : string := NilEmpty.string_of_int (Z.to_int n).

End PosixPath.

(* ===================================================================== *)
(** ** build/sandbox/nsjail.py: [run] *)
(* ===================================================================== *)

Module NsJail.
Import PosixPath.

Definition _DEFAULT_META_ANDROID_DIR := "LINUX/android".
Definition _SOURCE_MOUNT_POINT := "/src".
Definition _OUT_MOUNT_POINT := "/src/out".
Definition _DIST_MOUNT_POINT := "/dist".
Definition _META_MOUNT_POINT := "/meta".

(** The list literal of nsjail.py: ['etc/default' 'etc/perl'] has no comma
    between its strings, so Python joins them into one entry. *)
Definition _CHROOT_MOUNT_POINTS : list string :=
  ["bin"; "sbin"; "etc/alternatives"; "etc/default" ++ "etc/perl";
   "etc/ssl"; "etc/xml"; "lib"; "lib32"; "lib64"; "libx32"; "usr"].

(** The arguments of [run]. *)
Record run_args := {
  command : list string;
  android_target : string;
  nsjail_bin : string;
  chroot : option string;
  overlay_config : option string;
  source_dir : string;
  out_dirname_for_whiteout : option string;
  dist_dir : option string;
  build_id : option string;
  out_dir : option string;
  meta_root_dir : option string;
  meta_android_dir : option string;
  mount_local_device : bool;
  max_cpus : option Z;
  extra_bind_mounts : list string;
  readonly_bind_mounts : list string;
  extra_nsjail_args : list string;
  dry_run : bool;
  quiet : bool;
  env : list string
}.

(** What [run] sees of the host: the working directory, the directory of
    nsjail.py, the file system ([os.path.exists]), the output of
    [ps -eo cmd], the lines typed at [input()], and whether a subprocess
    exits with status 0. *)
Record host := {
  cwd : string;
  script_dir : string;
  path_exists : string -> bool;
  ps_output : string;
  user_inputs : list string;
  exits_ok : list string -> bool
}.

(** [overlay.BindOverlay(...).GetBindMounts()]: overlay.py is not part of
    the sources; its bind mounts (destination, source) are a parameter. *)
Class OverlayLib := {
  overlay_bind_mounts : string -> string -> string -> list string -> string ->
                        list (string * string)
}.

(** Observable effects of [run], in order. *)
Inductive event :=
| CheckOutput (cmd : list string)
| Print (text : string)
| ReadInput
| CheckCall (cmd : list string)
| Makedirs (path : string).

(** How [run] ends. *)
Inductive outcome :=
| Returned (nsjail_command : list string)
| ValueError (msg : string)
| SystemExit
| EOFError
| CalledProcessError (cmd : list string).

(** Python truthiness of an optional string. *)
Definition truthy (o : option string) : bool :=
  match o with
  | Some s => negb (String.eqb s "")
  | None => false
  end.

(** [s.split('\n')] *)
Fixpoint split_lines (s : string) : list string :=
  match s with
  | EmptyString => [""]
  | String c s' =>
      let r := split_lines s' in
      if Ascii.eqb c "010"%char then "" :: r
      else match r with
           | h :: t => String c h :: t
           | [] => [String c ""]
           end
  end.

(** The loop over the lines of [ps -eo cmd]: prompt for every line that
    looks like an adb server; a reply other than y/Y calls [exit()]. *)
Fixpoint adb_prompt_loop (h : host) (lines inputs : list string)
  : list event * option outcome :=
  match lines with
  | [] => ([], None)
  | line :: rest =>
      if adb_fork_server_match line then
        let prompt :=
          [Print ("An adb server is running on your host machine. This server must be "
                  ++ "killed to use the --mount_local_device flag.");
           Print "Continue? [y/N]: "; ReadInput] in
        match inputs with
        | [] => (prompt, Some EOFError)
        | answer :: inputs' =>
            if negb (String.eqb (lower answer) "y") then (prompt, Some SystemExit)
            else if negb (exits_ok h ["adb"; "kill-server"]) then
              ((prompt ++ [CheckCall ["adb"; "kill-server"]])%list,
               Some (CalledProcessError ["adb"; "kill-server"]))
            else
              let '(tr, r) := adb_prompt_loop h rest inputs' in
              ((prompt ++ CheckCall ["adb"; "kill-server"] :: tr)%list, r)
        end
      else adb_prompt_loop h rest inputs
  end.

(** Lines 111-121 of [run]. *)
Definition kill_adb_server (h : host) : list event * option outcome :=
  let ps := ["ps"; "-eo"; "cmd"] in
  if negb (exits_ok h ps) then ([CheckOutput ps], Some (CalledProcessError ps))
  else
    let '(tr, r) := adb_prompt_loop h (split_lines (ps_output h)) (user_inputs h) in
    (CheckOutput ps :: tr, r).

(** [' '.join(l)] *)
Fixpoint join_space (l : list string) : string :=
  match l with
  | [] => ""
  | [x] => x
  | x :: xs => x ++ " " ++ join_space xs
  end.

(** [d[key] = value] on an [OrderedDict] of (destination, source): an
    existing key keeps its position. *)
Fixpoint od_set (d : list (string * string)) (key value : string)
  : list (string * string) :=
  match d with
  | [] => [(key, value)]
  | (k, v) :: rest =>
      if String.eqb k key then (k, value) :: rest else (k, v) :: od_set rest key value
  end.

(** [if x: x = os.path.abspath(x)] *)
Definition abspath_if (cwd : string) (o : option string) : option string :=
  if truthy o then option_map (abspath cwd) o else o.

(** The chroot mounts of lines 150-157. *)
Definition chroot_mounts (h : host) (chroot : string) : list string :=
  flat_map (fun mpoints =>
              let source := join chroot [mpoints] in
              let dest := join "/" [mpoints] in
              if path_exists h source then ["--bindmount_ro"; source ++ ":" ++ dest] else [])
           _CHROOT_MOUNT_POINTS.

Definition local_device_mounts : list string :=
  ["--bindmount"; "/dev/bus/usb"; "--bindmount"; "/sys/bus/usb/devices";
   "--bindmount"; "/sys/dev"; "--bindmount"; "/sys/devices"].

Definition meta_android_dir_error : string :=
  "error: the provided meta_android_dir is not a path" ++ "relative to meta_root_dir.".

(** [nsjail.run(...)], lines 108-240. *)
Definition run `{OverlayLib} (h : host) (a : run_args) : list event * outcome :=
  let config_file := join (script_dir h) ["nsjail.cfg"] in
  let '(tr0, stopped) := if mount_local_device a then kill_adb_server h else ([], None) in
  match stopped with
  | Some o => (tr0, o)
  | None =>
  let out_dir := abspath_if (cwd h) (out_dir a) in
  let dist_dir := abspath_if (cwd h) (dist_dir a) in
  let meta_root_dir := abspath_if (cwd h) (meta_root_dir a) in
  let source_dir :=
    if String.eqb (source_dir a) "" then source_dir a else abspath (cwd h) (source_dir a) in
  let nsjail_bin :=
    if String.eqb (nsjail_bin a) "" then nsjail_bin a else join source_dir [nsjail_bin a] in
  let chroot :=
    if truthy (chroot a) then option_map (fun c => join source_dir [c]) (chroot a)
    else chroot a in
  if truthy meta_root_dir
     && (negb (truthy (meta_android_dir a)) || isabs (default "" (meta_android_dir a)))
  then (tr0, ValueError meta_android_dir_error)
  else
  let meta_android_dir := default "" (meta_android_dir a) in
  let cmd_chroot :=
    if truthy chroot then chroot_mounts h (default "" chroot) else [] in
  let cmd_build_id :=
    if truthy (build_id a) then ["--env"; "BUILD_NUMBER=" ++ default "" (build_id a)] else [] in
  let cmd_max_cpus :=
    match max_cpus a with
    | Some n => if Z.eqb n 0 then [] else ["--max_cpus=" ++ format_int n]
    | None => []
    end in
  let cmd_quiet := if quiet a then ["--quiet"] else [] in
  let whiteout_out_dirname :=
    if truthy (out_dirname_for_whiteout a)
    then [join source_dir [default "" (out_dirname_for_whiteout a)]] else [] in
  let od := default "" out_dir in
  let out_dir_whited_out :=
    truthy out_dir && String.eqb (dirname od) source_dir
    && negb (String.eqb (basename od) "out") in
  let whiteout_list :=
    if out_dir_whited_out
    then (whiteout_out_dirname ++ [abspath (cwd h) od])%list else whiteout_out_dirname in
  let tr_makedirs :=
    if out_dir_whited_out && negb (path_exists h od) then [Makedirs od] else [] in
  let bind_mounts :=
    if truthy (overlay_config a) && path_exists h (default "" (overlay_config a))
    then overlay_bind_mounts (android_target a) source_dir (default "" (overlay_config a))
           whiteout_list _SOURCE_MOUNT_POINT
    else [(_SOURCE_MOUNT_POINT, source_dir)] in
  let bind_mounts :=
    if truthy out_dir then od_set bind_mounts _OUT_MOUNT_POINT od else bind_mounts in
  let bind_mounts :=
    if truthy dist_dir then od_set bind_mounts _DIST_MOUNT_POINT (default "" dist_dir)
    else bind_mounts in
  let cmd_dist := if truthy dist_dir then ["--env"; "DIST_DIR=" ++ _DIST_MOUNT_POINT] else [] in
  let bind_mounts :=
    if truthy meta_root_dir then
      let bm := od_set bind_mounts _META_MOUNT_POINT (default "" meta_root_dir) in
      let bm := od_set bm (join _META_MOUNT_POINT [meta_android_dir]) source_dir in
      if truthy out_dir
      then od_set bm (join _META_MOUNT_POINT [meta_android_dir; "out"]) od else bm
    else bind_mounts in
  let cmd_binds :=
    flat_map (fun '(bind_destination, bind_source) =>
                ["--bindmount"; bind_source ++ ":" ++ bind_destination]) bind_mounts in
  let cmd_device := if mount_local_device a then local_device_mounts else [] in
  let nsjail_command :=
    ([nsjail_bin; "--env"; "USER=android-build"; "--config"; config_file]
     ++ cmd_chroot ++ cmd_build_id ++ cmd_max_cpus ++ cmd_quiet ++ cmd_dist ++ cmd_binds
     ++ cmd_device
     ++ flat_map (fun mount => ["--bindmount"; mount]) (extra_bind_mounts a)
     ++ flat_map (fun mount => ["--bindmount_ro"; mount]) (readonly_bind_mounts a)
     ++ flat_map (fun var => ["--env"; var]) (env a)
     ++ extra_nsjail_args a ++ ["--"] ++ command a)%list in
  let tr := (tr0 ++ tr_makedirs
             ++ (if quiet a then [] else [Print "NsJail command:"; Print (join_space nsjail_command)]))%list in
  if dry_run a then (tr, Returned nsjail_command)
  else ((tr ++ [CheckCall nsjail_command])%list,
        if exits_ok h nsjail_command then Returned nsjail_command
        else CalledProcessError nsjail_command)
  end.

(** How the adb check may stop [run]. *)
Definition adb_stop (o : outcome) : Prop :=
  o = SystemExit \/ o = EOFError \/
  o = CalledProcessError ["ps"; "-eo"; "cmd"] \/
  o = CalledProcessError ["adb"; "kill-server"].

(** The adb check that opens [run] (lines 111-121), or nothing. *)
Definition adb_check (h : host) (a : run_args) : list event * option outcome :=
  if mount_local_device a then kill_adb_server h else ([], None).

(** The test of lines 139-142 passes: no [meta_root_dir], or a non-empty
    relative [meta_android_dir]. *)
Definition meta_ok (a : run_args) : bool :=
  negb (truthy (meta_root_dir a))
  || (truthy (meta_android_dir a) && negb (isabs (default "" (meta_android_dir a)))).

(** [c.isspace()] for ASCII characters. *)
Definition is_space (c : ascii) : bool :=
  let n := nat_of_ascii c in
  ((9 <=? n)%nat && (n <=? 13)%nat) || ((28 <=? n)%nat && (n <=? 32)%nat).

Fixpoint split_ws_from (s cur : string) : list string :=
  match s with
  | EmptyString => if String.eqb cur "" then [] else [cur]
  | String c s' =>
      if is_space c
      then ((if String.eqb cur "" then [] else [cur]) ++ split_ws_from s' "")%list
      else split_ws_from s' (cur ++ String c "")
  end.

(** [s.split()]: the maximal runs of non-whitespace characters. *)
Definition split_ws (s : string) : list string := split_ws_from s "".

(** The [argparse.Namespace] of [parse_args] (lines 242-353). *)
Record namespace := {
  ns_nsjail_bin : string;
  ns_chroot : option string;
  ns_overlay_config : option string;
  ns_source_dir : string;
  ns_out_dir : option string;
  ns_meta_root_dir : string;
  ns_meta_android_dir : string;
  ns_out_dirname_for_whiteout : option string;
  ns_whiteout : list string;
  ns_command : string;
  ns_android_target : string;
  ns_dist_dir : option string;
  ns_build_id : option string;
  ns_max_cpus : option Z;
  ns_bindmount : list string;
  ns_bindmount_ro : list string;
  ns_dry_run : bool;
  ns_quiet : bool;
  ns_mount_local_device : bool;
  ns_env : list string
}.

(** The keyword arguments [run_with_args] passes to [run]
    (lines 366-384); [extra_nsjail_args], [stdout] and [stderr] keep their
    defaults. *)
Definition run_args_of (args : namespace) : run_args := {|
  chroot := ns_chroot args;
  nsjail_bin := ns_nsjail_bin args;
  overlay_config := ns_overlay_config args;
  source_dir := ns_source_dir args;
  command := split_ws (ns_command args);
  android_target := ns_android_target args;
  out_dirname_for_whiteout := ns_out_dirname_for_whiteout args;
  dist_dir := ns_dist_dir args;
  build_id := ns_build_id args;
  out_dir := ns_out_dir args;
  meta_root_dir := Some (ns_meta_root_dir args);
  meta_android_dir := Some (ns_meta_android_dir args);
  mount_local_device := ns_mount_local_device args;
  max_cpus := ns_max_cpus args;
  extra_bind_mounts := ns_bindmount args;
  readonly_bind_mounts := ns_bindmount_ro args;
  extra_nsjail_args := [];
  dry_run := ns_dry_run args;
  quiet := ns_quiet args;
  env := ns_env args
|}.

(** [run_with_args(args)]: calls [run] and drops its result, so it returns
    [None]; the second component is the exception it raises, if any. *)
Definition run_with_args `{OverlayLib} (h : host) (args : namespace)
  : list event * option outcome :=
  let '(tr, o) := run h (run_args_of args) in
  (tr, match o with
       | Returned _ => None
       | e => Some e
       end).

(** [l] occurs as a contiguous run of [m]. *)
Definition infix_of (l m : list string) : Prop :=
  exists k1 k2, m = (k1 ++ l ++ k2)%list.

(** The command bind-mounts [src] at [dest]. *)
Definition mounts (cmd : list string) (src dest : string) : Prop :=
  infix_of ["--bindmount"; src ++ ":" ++ dest] cmd.

End NsJail.

(* ===================================================================== *)
(** ** Sample hosts and calls of nsjail.run *)
(* ===================================================================== *)

Module NsJailData.
Import NsJail.

(** An overlay that mounts the source tree unchanged. *)
#[export] Instance plain_overlay : OverlayLib := {|
  overlay_bind_mounts := fun _ source_dir _ _ mount_point => [(mount_point, source_dir)]
|}.

(** A host with an adb server running; the user answers [n]. *)
Definition adb_host : host := {|
  cwd := "/home/user/android";
  script_dir := "/home/user/android/tools/treble/build/sandbox";
  path_exists := fun _ => false;
  ps_output := "bash" ++ String "010"%char "adb -L tcp:5037 fork-server server --reply-fd 4";
  user_inputs := ["n"];
  exits_ok := fun _ => true
|}.

(** A call with a META root and an absolute [meta_android_dir]. *)
Definition meta_call (mount : bool) : run_args := {|
  command := ["/bin/bash"];
  android_target := "aosp_x86_64-userdebug";
  nsjail_bin := "prebuilts/nsjail";
  chroot := None;
  overlay_config := None;
  source_dir := "/home/user/android";
  out_dirname_for_whiteout := None;
  dist_dir := None;
  build_id := None;
  out_dir := None;
  meta_root_dir := Some "meta";
  meta_android_dir := Some "/LINUX/android";
  mount_local_device := mount;
  max_cpus := None;
  extra_bind_mounts := [];
  readonly_bind_mounts := [];
  extra_nsjail_args := [];
  dry_run := true;
  quiet := true;
  env := []
|}.

(** The same call with the default relative [meta_android_dir]. *)
Definition meta_call_ok : run_args :=
  {| command := ["/bin/bash"]; android_target := "aosp_x86_64-userdebug";
     nsjail_bin := "prebuilts/nsjail"; chroot := None; overlay_config := None;
     source_dir := "/home/user/android"; out_dirname_for_whiteout := None;
     dist_dir := None; build_id := Some "42"; out_dir := Some "out2";
     meta_root_dir := Some "meta"; meta_android_dir := Some _DEFAULT_META_ANDROID_DIR;
     mount_local_device := false; max_cpus := Some 8%Z; extra_bind_mounts := [];
     readonly_bind_mounts := []; extra_nsjail_args := []; dry_run := true;
     quiet := true; env := [] |}.

(** [meta_call_ok] run for real, or as a dry run. *)
Definition meta_call_exec (dry : bool) : run_args :=
  {| command := ["/bin/bash"]; android_target := "aosp_x86_64-userdebug";
     nsjail_bin := "prebuilts/nsjail"; chroot := None; overlay_config := None;
     source_dir := "/home/user/android"; out_dirname_for_whiteout := None;
     dist_dir := None; build_id := Some "42"; out_dir := Some "out2";
     meta_root_dir := Some "meta"; meta_android_dir := Some _DEFAULT_META_ANDROID_DIR;
     mount_local_device := false; max_cpus := Some 8%Z; extra_bind_mounts := [];
     readonly_bind_mounts := []; extra_nsjail_args := []; dry_run := dry;
     quiet := false; env := [] |}.

(** [parse_args()] with its defaults: no [meta_root_dir], a dry run. *)
Definition sample_args : namespace := {|
  ns_nsjail_bin := "prebuilts/nsjail"; ns_chroot := None; ns_overlay_config := None;
  ns_source_dir := "/home/user/android"; ns_out_dir := None; ns_meta_root_dir := "";
  ns_meta_android_dir := _DEFAULT_META_ANDROID_DIR; ns_out_dirname_for_whiteout := None;
  ns_whiteout := []; ns_command := "make  -j8 droid";
  ns_android_target := "aosp_x86_64-userdebug"; ns_dist_dir := None; ns_build_id := None;
  ns_max_cpus := None; ns_bindmount := []; ns_bindmount_ro := []; ns_dry_run := true;
  ns_quiet := false; ns_mount_local_device := false; ns_env := [] |}.

(** A host on which every path exists. *)
Definition chroot_host : host := {|
  cwd := "/home/user/android";
  script_dir := "/home/user/android/tools/treble/build/sandbox";
  path_exists := fun _ => true;
  ps_output := "bash";
  user_inputs := [];
  exits_ok := fun _ => true
|}.

End NsJailData.

(* ===================================================================== *)
(** ** Inputs of manifest_split_test.py *)
(* ===================================================================== *)

Module TestData.

(** The repo-path index of [test_scan_repo_projects]. *)
Definition test_repo_projects : gmap string string :=
  <["system/project1" := "platform/project1"]>
  (<["system/project2" := "platform/project2"]> ∅).

(** The repo-path index and inputs of [test_get_input_projects]. *)
Definition input_repo_projects : gmap string string :=
  <["system/project1" := "platform/project1"]>
  (<["system/project2" := "platform/project2"]>
  (<["system/project4" := "platform/project4"]> ∅)).

Definition test_inputs : list string :=
  ["system/project1/path/to/file.h"; "out/path/to/out/file.h";
   "system/project2/path/to/another_file.cc";
   "system/project3/path/to/unknown_file.h"; "/tmp/absolute/path/file.java"].

(** The tables of [test_get_module_info]. *)
Definition module_repo_projects : gmap string string :=
  <["system/project1" := "platform/project1"]>
  (<["vendor/google/project3" := "vendor/project3"]> ∅).

Definition test_module_info : list (string * list string) :=
  [("target1a", ["system/project1"]); ("target1b", ["system/project1"]);
   ("target2", ["out/project2"]); ("target3", ["vendor/google/project3"])].

(** The table of [test_get_module_info_raises_on_unknown_module_path]. *)
Definition unknown_module_info : list (string * list string) :=
  [("target1", ["system/unknown/project1"])].

(** The manifest of [test_update_manifest]. *)
Definition project_element (name path : string) : ManifestXml.element :=
  ManifestXml.Element "project" [("name", name); ("path", path)] [].

Definition test_manifest : ManifestXml.element :=
  ManifestXml.Element "manifest" []
    [project_element "platform/project1" "system/project1";
     project_element "platform/project2" "system/project2";
     project_element "platform/project3" "system/project3"].

(** The parsed config of [test_read_config]. *)
Definition test_config_root : ManifestXml.element :=
  ManifestXml.Element "config" []
    [ManifestXml.Element "add_project" [("name", "add1")] [];
     ManifestXml.Element "add_project" [("name", "add2")] [];
     ManifestXml.Element "remove_project" [("name", "remove1")] [];
     ManifestXml.Element "remove_project" [("name", "remove2")] []].

End TestData.

(* ===================================================================== *)
(** * Proofs *)
(* ===================================================================== *)

(** ** Segments *)

Module PathFacts.

Lemma split_slash_nonempty s : split_slash s <> [].
Proof.
  induction s as [|c s IH]; simpl; [discriminate|].
  destruct (Ascii.eqb c slash); [discriminate|].
  destruct (split_slash s); discriminate.
Qed.

Lemma join_slash_cons_char c h t :
  join_slash (String c h :: t) = String c (join_slash (h :: t)).
Proof. destruct t; reflexivity. Qed.

Lemma join_split s : join_slash (split_slash s) = s.
Proof.
  induction s as [|c s IH]; simpl; [reflexivity|].
  destruct (Ascii.eqb c slash) eqn:Hc.
  - apply Ascii.eqb_eq in Hc. subst c.
    pose proof (split_slash_nonempty s) as Hne.
    destruct (split_slash s) as [|x r]; [congruence|].
    simpl. rewrite <- IH. reflexivity.
  - pose proof (split_slash_nonempty s) as Hne.
    destruct (split_slash s) as [|h t]; [congruence|].
    rewrite join_slash_cons_char, IH. reflexivity.
Qed.

Lemma split_no_slash_single x : has_slash x = false -> split_slash x = [x].
Proof.
  induction x as [|c x IH]; simpl; [reflexivity|].
  intros H. apply orb_false_iff in H as [Hc Hx].
  rewrite Hc, IH by exact Hx. reflexivity.
Qed.

Lemma split_app_slash x s :
  has_slash x = false -> split_slash (x ++ String slash s) = x :: split_slash s.
Proof.
  induction x as [|c x IH]; simpl; intros H.
  - reflexivity.
  - apply orb_false_iff in H as [Hc Hx].
    rewrite Hc, IH by exact Hx. reflexivity.
Qed.

Lemma split_join l :
  l <> [] -> Forall (fun x => has_slash x = false) l ->
  split_slash (join_slash l) = l.
Proof.
  induction l as [|x l IH]; intros Hne Hall; [congruence|].
  inversion Hall as [|? ? Hx Hl]; subst.
  destruct l as [|y l].
  - simpl. apply split_no_slash_single, Hx.
  - change (join_slash (x :: y :: l)) with (x ++ String slash (join_slash (y :: l))).
    rewrite split_app_slash by exact Hx.
    rewrite IH by (auto || discriminate). reflexivity.
Qed.

Lemma split_no_slash s : Forall (fun x => has_slash x = false) (split_slash s).
Proof.
  induction s as [|c s IH]; simpl.
  - constructor; [reflexivity|constructor].
  - destruct (Ascii.eqb c slash) eqn:Hc.
    + constructor; [reflexivity|exact IH].
    + destruct (split_slash s) as [|h t]; [constructor; [simpl; rewrite Hc; reflexivity|constructor]|].
      inversion IH as [|? ? Hh Ht]; subst.
      constructor; [simpl; rewrite Hc, Hh; reflexivity|exact Ht].
Qed.

End PathFacts.

(** ** Longest-prefix resolution *)

Module ScanFacts.
Import ManifestSplit PathFacts.

Lemma scan_from_Some repo_projects parts i k :
  scan_from repo_projects parts i = Some k <->
  exists j, 1 <= j <= i /\ k = join_slash (firstn j parts) /\
    is_Some (repo_projects !! k) /\
    forall j', j < j' <= i -> repo_projects !! join_slash (firstn j' parts) = None.
Proof.
  induction i as [|i IH]; simpl.
  - split; [discriminate|]. intros (j & Hj & _). lia.
  - destruct (repo_projects !! join_slash (firstn (S i) parts)) eqn:Hl.
    + split.
      * intros [= <-]. exists (S i). split; [lia|]. split; [reflexivity|].
        split; [rewrite Hl; eauto|]. intros j' Hj'. lia.
      * intros (j & Hj & -> & Hin & Hmax).
        destruct (decide (j = S i)) as [->|Hne]; [reflexivity|].
        rewrite Hmax in Hl by lia. discriminate.
    + rewrite IH. split.
      * intros (j & Hj & Hk & Hin & Hmax). exists j.
        split; [lia|]. split; [exact Hk|]. split; [exact Hin|].
        intros j' Hj'. destruct (decide (j' = S i)) as [->|Hne]; [exact Hl|].
        apply Hmax. lia.
      * intros (j & Hj & Hk & Hin & Hmax).
        destruct (decide (j = S i)) as [->|Hne].
        { subst k. rewrite Hl in Hin. destruct Hin; discriminate. }
        exists j. split; [lia|]. split; [exact Hk|]. split; [exact Hin|].
        intros j' Hj'. apply Hmax. lia.
Qed.

Lemma scan_from_None repo_projects parts i :
  scan_from repo_projects parts i = None <->
  forall j, 1 <= j <= i -> repo_projects !! join_slash (firstn j parts) = None.
Proof.
  induction i as [|i IH]; simpl.
  - split; [intros _ j Hj; lia|reflexivity].
  - destruct (repo_projects !! join_slash (firstn (S i) parts)) eqn:Hl.
    + split; [discriminate|]. intros H. rewrite H in Hl by lia. discriminate.
    + rewrite IH. split.
      * intros H j Hj. destruct (decide (j = S i)) as [->|Hne]; [exact Hl|].
        apply H. lia.
      * intros H j Hj. apply H. lia.
Qed.

Lemma firstn_nonempty {A} (l : list A) j : 1 <= j <= length l -> firstn j l <> [].
Proof.
  intros Hj Heq. apply (f_equal length) in Heq.
  rewrite length_firstn in Heq. simpl in Heq. lia.
Qed.

Lemma Forall_firstn {A} (P : A -> Prop) (l : list A) j :
  Forall P l -> Forall P (firstn j l).
Proof.
  intros H. revert j. induction H as [|x l Hx Hl IH]; intros [|j]; simpl; auto.
Qed.

(** A prefix of [split_slash p] of [j] segments, joined back. *)
Lemma split_join_firstn p j :
  1 <= j <= length (split_slash p) ->
  split_slash (join_slash (firstn j (split_slash p))) = firstn j (split_slash p).
Proof.
  intros Hj. apply split_join; [by apply firstn_nonempty|].
  apply Forall_firstn, split_no_slash.
Qed.

(** Segment-wise prefixes of [p] are exactly the joined leading segments. *)
Lemma seg_prefix_iff k p :
  seg_prefix k p <->
  exists j, 1 <= j <= length (split_slash p) /\
    k = join_slash (firstn j (split_slash p)) /\ length (split_slash k) = j.
Proof.
  unfold seg_prefix. split.
  - intros [r Hr]. exists (length (split_slash k)).
    pose proof (split_slash_nonempty k) as Hne.
    assert (Hlen : length (split_slash p) = length (split_slash k) + length r)
      by (rewrite Hr, length_app; reflexivity).
    assert (H1 : 1 <= length (split_slash k))
      by (destruct (split_slash k); [congruence|simpl; lia]).
    split; [lia|].
    split; [|reflexivity].
    rewrite Hr, firstn_app, Nat.sub_diag, firstn_O, app_nil_r, firstn_all.
    symmetry. apply join_split.
  - intros (j & Hj & -> & _).
    rewrite split_join_firstn by exact Hj.
    exists (skipn j (split_slash p)). symmetry. apply firstn_skipn.
Qed.


Lemma length_split_join_firstn p j :
  1 <= j <= length (split_slash p) ->
  length (split_slash (join_slash (firstn j (split_slash p)))) = j.
Proof.
  intros Hj. rewrite split_join_firstn by exact Hj.
  rewrite length_firstn. lia.
Qed.

End ScanFacts.

(** ** Claim C1: longest-prefix resolution *)

Module C1.
Import ManifestSplit PathFacts ScanFacts TestData.

Example scan_test_1 :
  scan_repo_projects test_repo_projects "system/project1/path/to/file.h"
  = Some "system/project1".
Proof. reflexivity. Qed.

Example scan_test_2 :
  scan_repo_projects test_repo_projects "system/project2/path/to/another_file.cc"
  = Some "system/project2".
Proof. reflexivity. Qed.

Example scan_test_3 :
  scan_repo_projects test_repo_projects "system/project3/path/to/unknown_file.h"
  = None.
Proof. reflexivity. Qed.

(** Claim C1 as stated fails: on the index and path of
    [test_scan_repo_projects], [scan_repo_projects] returns the repo-path
    [system/project1] of the longest matching key, not the project
    identifier [platform/project1] stored under it. *)
Lemma scan_repo_projects_returns_path_not_name :
  test_repo_projects !! "system/project1" = Some "platform/project1" /\
  scan_repo_projects test_repo_projects "system/project1/path/to/file.h"
    = Some "system/project1" /\
  scan_repo_projects test_repo_projects "system/project1/path/to/file.h"
    <> Some "platform/project1".
Proof. split; [reflexivity|]. split; [reflexivity|]. vm_compute. congruence. Qed.

(** Claim C1 (amended): for every repo-path index and path [p],
    [scan_repo_projects] returns the repo-path key that is the longest
    (in segments) segment-wise prefix of [p] among the keys of the index
    (its project identifier is the index entry under that key), and it
    returns [None] exactly when no key is a segment-wise prefix of [p]. *)
Theorem scan_repo_projects_longest_key (repo_projects : gmap string string) (p : string) :
  (forall k, scan_repo_projects repo_projects p = Some k <->
     is_Some (repo_projects !! k) /\ seg_prefix k p /\
     forall k', is_Some (repo_projects !! k') -> seg_prefix k' p ->
       length (split_slash k') <= length (split_slash k)) /\
  (scan_repo_projects repo_projects p = None <->
     forall k, is_Some (repo_projects !! k) -> ~ seg_prefix k p).
Proof.
  unfold scan_repo_projects. split.
  - intros k. rewrite scan_from_Some. split.
    + intros (j & Hj & Hk & Hin & Hmax).
      pose proof (length_split_join_firstn p j Hj) as Hlen.
      split; [exact Hin|]. split.
      { apply seg_prefix_iff. exists j. subst k. auto. }
      intros k' Hin' Hpre'.
      apply seg_prefix_iff in Hpre' as (j' & Hj' & -> & Hlen').
      rewrite Hlen', Hk, Hlen.
      destruct (decide (j' <= j)) as [|Hgt]; [assumption|].
      rewrite Hmax in Hin' by lia. destruct Hin'; discriminate.
    + intros (Hin & Hpre & Hmax).
      apply seg_prefix_iff in Hpre as (j & Hj & Hk & Hlen).
      exists j. split; [exact Hj|]. split; [exact Hk|]. split; [exact Hin|].
      intros j' Hj'.
      destruct (repo_projects !! join_slash (firstn j' (split_slash p))) eqn:Hl;
        [|reflexivity].
      exfalso.
      assert (Hle := Hmax (join_slash (firstn j' (split_slash p)))
                      ltac:(rewrite Hl; eauto)
                      ltac:(apply seg_prefix_iff; exists j'; split; [lia|];
                            split; [reflexivity|];
                            apply length_split_join_firstn; lia)).
      rewrite length_split_join_firstn in Hle by lia. lia.
  - rewrite scan_from_None. split.
    + intros H k Hin Hpre.
      apply seg_prefix_iff in Hpre as (j & Hj & -> & _).
      rewrite H in Hin by exact Hj. destruct Hin; discriminate.
    + intros H j Hj.
      destruct (repo_projects !! join_slash (firstn j (split_slash p))) eqn:Hl;
        [|reflexivity].
      exfalso. apply (H (join_slash (firstn j (split_slash p)))).
      * rewrite Hl. eauto.
      * apply seg_prefix_iff. exists j. split; [exact Hj|]. split; [reflexivity|].
        apply length_split_join_firstn, Hj.
Qed.

End C1.

(** ** Input projects *)

Module InputFacts.
Import ManifestSplit.

Lemma elem_of_get_input_projects repo_projects inputs x :
  x ∈ get_input_projects repo_projects inputs <->
  exists p, p ∈ inputs /\ project_of repo_projects p = Some x.
Proof.
  unfold get_input_projects. rewrite elem_of_list_to_set, list_elem_of_omap.
  reflexivity.
Qed.

Lemma project_of_Some repo_projects p x :
  project_of repo_projects p = Some x <->
  exists k, scan_repo_projects repo_projects p = Some k /\ repo_projects !! k = Some x.
Proof.
  unfold project_of. destruct (scan_repo_projects repo_projects p) as [k|]; simpl.
  - split; [eauto|]. intros (k' & [= <-] & H). exact H.
  - split; [discriminate|]. intros (k & ? & _). discriminate.
Qed.

End InputFacts.

(** ** Claim C4: input projects *)

Module C4.
Import ManifestSplit InputFacts TestData.

Example get_input_projects_test :
  get_input_projects input_repo_projects test_inputs
  = {["platform/project1"; "platform/project2"]}.
Proof. vm_compute. reflexivity. Qed.

(** Claim C4: [get_input_projects] returns exactly the project names
    owning some input path (the index entry under the repo-path found by
    [scan_repo_projects]); the result is a plain set (no error), and a
    path that resolves to no project is dropped: removing it from the
    input list leaves the result unchanged. *)
Theorem get_input_projects_exact (repo_projects : gmap string string)
    (inputs : list string) :
  (forall x, x ∈ get_input_projects repo_projects inputs <->
     exists p k, p ∈ inputs /\ scan_repo_projects repo_projects p = Some k /\
       repo_projects !! k = Some x) /\
  (forall (l1 : list string) (p : string) (l2 : list string),
     inputs = (l1 ++ p :: l2)%list ->
     project_of repo_projects p = None ->
     get_input_projects repo_projects inputs = get_input_projects repo_projects (l1 ++ l2)%list).
Proof.
  split.
  - intros x. rewrite elem_of_get_input_projects. split.
    + intros (p & Hp & Hx). apply project_of_Some in Hx as (k & Hk & Hx). eauto.
    + intros (p & k & Hp & Hk & Hx). exists p. split; [exact Hp|].
      apply project_of_Some. eauto.
  - intros l1 p l2 -> Hnone. apply set_eq. intros x.
    rewrite !elem_of_get_input_projects. split.
    + intros (q & Hq & Hx). exists q. split; [|exact Hx].
      apply elem_of_app in Hq as [Hq|Hq]; apply elem_of_app; [by left|].
      apply elem_of_cons in Hq as [->|Hq]; [congruence|by right].
    + intros (q & Hq & Hx). exists q. split; [|exact Hx].
      apply elem_of_app in Hq as [Hq|Hq]; apply elem_of_app; [by left|].
      right. by apply elem_of_cons; right.
Qed.

End C4.

(** ** Claim C7: order independence of input projects *)

Module C7.
Import ManifestSplit InputFacts TestData.

(** Claim C7: [get_input_projects] does not depend on the order of the
    input list: any permutation gives the same set; repeating the inputs,
    or taking the union of two calls on the same list, gives the set of
    one call. *)
Theorem get_input_projects_order_independent (repo_projects : gmap string string) :
  (forall inputs inputs' : list string, inputs ≡ₚ inputs' ->
     get_input_projects repo_projects inputs = get_input_projects repo_projects inputs') /\
  (forall inputs : list string,
     get_input_projects repo_projects (inputs ++ inputs)%list
       = get_input_projects repo_projects inputs /\
     get_input_projects repo_projects inputs ∪ get_input_projects repo_projects inputs
       = get_input_projects repo_projects inputs).
Proof.
  split.
  - intros inputs inputs' Hperm. apply set_eq. intros x.
    rewrite !elem_of_get_input_projects.
    split; intros (p & Hp & Hx); exists p; split; try exact Hx.
    + by rewrite <- Hperm.
    + by rewrite Hperm.
  - intros inputs. split; [|set_solver].
    apply set_eq. intros x. rewrite !elem_of_get_input_projects.
    split; intros (p & Hp & Hx); exists p; split; try exact Hx.
    + by apply elem_of_app in Hp as [Hp|Hp].
    + apply elem_of_app. by left.
Qed.

End C7.

(** ** Module-info index *)

Module ModuleInfoFacts.
Import ManifestSplit.

Lemma targets_add_module project target m project' x :
  x ∈ targets (add_module project target m) project' <->
  x ∈ targets m project' \/ (x = target /\ project' = project).
Proof.
  unfold targets, add_module.
  destruct (decide (project = project')) as [->|Hne].
  - rewrite lookup_insert_eq. simpl. set_solver.
  - rewrite lookup_insert_ne by exact Hne. set_solver.
Qed.

Lemma nonempty_add_module project target m :
  nonempty_sets m -> nonempty_sets (add_module project target m).
Proof.
  unfold nonempty_sets, add_module. intros H project' s.
  destruct (decide (project = project')) as [->|Hne].
  - rewrite lookup_insert_eq. intros [= <-]. set_solver.
  - rewrite lookup_insert_ne by exact Hne. apply H.
Qed.

Lemma add_module_paths_inr repo_projects target paths m m' :
  add_module_paths repo_projects target paths m = inr m' ->
  (nonempty_sets m -> nonempty_sets m') /\
  forall project x, x ∈ targets m' project <->
    x ∈ targets m project \/
    (x = target /\ exists p, p ∈ paths /\ project_of repo_projects p = Some project).
Proof.
  revert m. induction paths as [|path paths IH]; simpl; intros m Hm.
  - injection Hm as <-. split; [auto|]. intros project x. split; [auto|].
    intros [H|(_ & p & Hp & _)]; [exact H|]. apply elem_of_nil in Hp as [].
  - destruct (project_of repo_projects path) as [project0|] eqn:Hpath.
    + apply IH in Hm as [Hne Hm]. split.
      { intros H0. apply Hne, nonempty_add_module, H0. }
      intros project x. rewrite Hm, targets_add_module. split.
      * intros [[H|(-> & ->)]|(-> & p & Hp & Hproj)]; [by left|..].
        -- right. split; [reflexivity|]. exists path. split; [by left|exact Hpath].
        -- right. split; [reflexivity|]. exists p. split; [by right|exact Hproj].
      * intros [H|(-> & p & Hp & Hproj)]; [by left; left|].
        apply elem_of_cons in Hp as [->|Hp].
        -- left. right. split; [reflexivity|]. congruence.
        -- right. split; [reflexivity|]. eauto.
    + destruct (startswith path "out/") eqn:Hout; [|discriminate].
      apply IH in Hm as [Hne Hm]. split; [exact Hne|].
      intros project x. rewrite Hm. split.
      * intros [H|(-> & p & Hp & Hproj)]; [by left|].
        right. split; [reflexivity|]. exists p. split; [by right|exact Hproj].
      * intros [H|(-> & p & Hp & Hproj)]; [by left|].
        apply elem_of_cons in Hp as [->|Hp]; [congruence|].
        right. split; [reflexivity|]. eauto.
Qed.

Lemma add_module_paths_inl repo_projects target paths m e :
  add_module_paths repo_projects target paths m = inl e ->
  exists path, e = InconsistentIndexError target path /\ path ∈ paths /\
    unresolved repo_projects path.
Proof.
  revert m. induction paths as [|path paths IH]; simpl; intros m Hm; [discriminate|].
  destruct (project_of repo_projects path) as [project0|] eqn:Hpath.
  - apply IH in Hm as (p & -> & Hp & Hu). exists p. split; [reflexivity|].
    split; [by right|exact Hu].
  - destruct (startswith path "out/") eqn:Hout.
    + apply IH in Hm as (p & -> & Hp & Hu). exists p. split; [reflexivity|].
      split; [by right|exact Hu].
    + injection Hm as <-. exists path. split; [reflexivity|].
      split; [by left|]. split; assumption.
Qed.

Lemma add_module_paths_total repo_projects target paths m :
  (exists path, path ∈ paths /\ unresolved repo_projects path) \/
  exists m', add_module_paths repo_projects target paths m = inr m'.
Proof.
  revert m. induction paths as [|path paths IH]; simpl; intros m; [eauto|].
  destruct (project_of repo_projects path) as [project0|] eqn:Hpath.
  - destruct (IH (add_module project0 target m)) as [(p & Hp & Hu)|Hok]; [|by right].
    left. exists p. split; [by right|exact Hu].
  - destruct (startswith path "out/") eqn:Hout.
    + destruct (IH m) as [(p & Hp & Hu)|Hok]; [|by right].
      left. exists p. split; [by right|exact Hu].
    + left. exists path. split; [by left|]. split; assumption.
Qed.

Lemma add_module_paths_fails repo_projects target paths m path :
  path ∈ paths -> unresolved repo_projects path ->
  exists e, add_module_paths repo_projects target paths m = inl e.
Proof.
  revert m. induction paths as [|path0 paths IH]; simpl; intros m Hp [Hnone Hout].
  - apply elem_of_nil in Hp as [].
  - apply elem_of_cons in Hp as [->|Hp].
    + rewrite Hnone, Hout. eauto.
    + destruct (project_of repo_projects path0) as [project0|];
        [|destruct (startswith path0 "out/"); [|eauto]];
        apply IH; auto; split; assumption.
Qed.

Lemma add_modules_inr repo_projects module_info m m' :
  add_modules repo_projects module_info m = inr m' ->
  (nonempty_sets m -> nonempty_sets m') /\
  forall project x, x ∈ targets m' project <->
    x ∈ targets m project \/
    exists paths p, (x, paths) ∈ module_info /\ p ∈ paths /\
      project_of repo_projects p = Some project.
Proof.
  revert m. induction module_info as [|[target paths] module_info IH]; simpl;
    intros m Hm.
  - injection Hm as <-. split; [auto|]. intros project x. split; [auto|].
    intros [H|(paths & p & Hin & _)]; [exact H|]. apply elem_of_nil in Hin as [].
  - destruct (add_module_paths repo_projects target paths m) as [e|m1] eqn:H1;
      [discriminate|].
    apply add_module_paths_inr in H1 as [Hne1 H1].
    apply IH in Hm as [Hne Hm]. split; [auto|].
    intros project x. rewrite Hm, H1. split.
    + intros [[H|(-> & p & Hp & Hproj)]|(paths' & p & Hin & Hp & Hproj)];
        [by left|..].
      * right. exists paths, p. split; [by left|auto].
      * right. exists paths', p. split; [by right|auto].
    + intros [H|(paths' & p & Hin & Hp & Hproj)]; [by left; left|].
      apply elem_of_cons in Hin as [Heq|Hin].
      * injection Heq as -> ->. left. right. eauto.
      * right. eauto.
Qed.

Lemma add_modules_inl repo_projects module_info m e :
  add_modules repo_projects module_info m = inl e ->
  exists target paths path, e = InconsistentIndexError target path /\
    (target, paths) ∈ module_info /\ path ∈ paths /\ unresolved repo_projects path.
Proof.
  revert m. induction module_info as [|[target paths] module_info IH]; simpl;
    intros m Hm; [discriminate|].
  destruct (add_module_paths repo_projects target paths m) as [e'|m1] eqn:H1.
  - injection Hm as <-. apply add_module_paths_inl in H1 as (p & -> & Hp & Hu).
    exists target, paths, p. split; [reflexivity|]. split; [by left|auto].
  - apply IH in Hm as (t & ps & p & -> & Hin & Hp & Hu).
    exists t, ps, p. split; [reflexivity|]. split; [by right|auto].
Qed.

Lemma add_modules_total repo_projects module_info m :
  (exists target paths path, (target, paths) ∈ module_info /\ path ∈ paths /\
     unresolved repo_projects path) \/
  exists m', add_modules repo_projects module_info m = inr m'.
Proof.
  revert m. induction module_info as [|[target paths] module_info IH]; simpl;
    intros m; [eauto|].
  destruct (add_module_paths_total repo_projects target paths m)
    as [(p & Hp & Hu)|(m1 & H1)].
  - left. exists target, paths, p. split; [by left|auto].
  - rewrite H1. destruct (IH m1) as [(t & ps & p & Hin & Hp & Hu)|Hok]; [|by right].
    left. exists t, ps, p. split; [by right|auto].
Qed.

Lemma add_modules_fails repo_projects module_info m target paths path :
  (target, paths) ∈ module_info -> path ∈ paths -> unresolved repo_projects path ->
  exists e, add_modules repo_projects module_info m = inl e.
Proof.
  revert m. induction module_info as [|[target0 paths0] module_info IH]; simpl;
    intros m Hin Hp Hu; [apply elem_of_nil in Hin as []|].
  destruct (add_module_paths repo_projects target0 paths0 m) as [e|m1] eqn:H1; [eauto|].
  apply elem_of_cons in Hin as [Heq|Hin].
  - injection Heq as -> ->.
    destruct (add_module_paths_fails repo_projects target0 paths0 m path Hp Hu) as [e He].
    congruence.
  - apply IH; assumption.
Qed.

End ModuleInfoFacts.

(** ** Claim C2: unresolvable module paths *)

Module C2.
Import ManifestSplit ModuleInfoFacts TestData.

Example get_module_info_raises_test :
  get_module_info ∅ unknown_module_info
  = inl (InconsistentIndexError "target1" "system/unknown/project1").
Proof. vm_compute. reflexivity. Qed.

(** Claim C2 as stated fails: in [test_get_module_info] the path
    [out/project2] of [target2] resolves to no repo project, yet
    [get_module_info] succeeds and returns the mapping the test expects. *)
Lemma get_module_info_skips_unresolved_out_path :
  project_of module_repo_projects "out/project2" = None /\
  get_module_info module_repo_projects test_module_info
  = inr (<["platform/project1" := {["target1a"; "target1b"]}]>
         (<["vendor/project3" := {["target3"]}]> ∅)).
Proof. split; vm_compute; reflexivity. Qed.

(** Claim C2 (amended): [get_module_info] fails exactly when some target
    has a path that resolves to no repo project and does not start with
    [out/]; the error then names such a target and such a path of it, and
    no mapping is produced.  Unresolvable paths under [out/] are skipped. *)
Theorem get_module_info_inconsistent (repo_projects : gmap string string)
    (module_info : list (string * list string)) :
  (forall target path,
     get_module_info repo_projects module_info
       = inl (InconsistentIndexError target path) ->
     exists paths, (target, paths) ∈ module_info /\ path ∈ paths /\
       project_of repo_projects path = None /\ startswith path "out/" = false) /\
  ((exists target paths path, (target, paths) ∈ module_info /\ path ∈ paths /\
      project_of repo_projects path = None /\ startswith path "out/" = false) <->
   exists target path,
     get_module_info repo_projects module_info
       = inl (InconsistentIndexError target path)).
Proof.
  unfold get_module_info. split; [|split].
  - intros target path H. apply add_modules_inl in H as (t & ps & p & Heq & Hin & Hp & Hu).
    injection Heq as <- <-. exists ps. destruct Hu. auto.
  - intros (target & paths & path & Hin & Hp & Hnone & Hout).
    destruct (add_modules_fails repo_projects module_info ∅ target paths path Hin Hp
                (conj Hnone Hout)) as [[t p] He].
    eauto.
  - intros (target & path & H).
    apply add_modules_inl in H as (t & ps & p & Heq & Hin & Hp & [Hnone Hout]).
    injection Heq as <- <-. eauto 10.
Qed.

(** The theorem at the table of
    [test_get_module_info_raises_on_unknown_module_path]. *)
Lemma get_module_info_inconsistent_witness :
  exists paths, ("target1", paths) ∈ unknown_module_info /\
    "system/unknown/project1" ∈ paths /\
    project_of ∅ "system/unknown/project1" = None /\
    startswith "system/unknown/project1" "out/" = false.
Proof.
  apply (proj1 (get_module_info_inconsistent ∅ unknown_module_info)).
  vm_compute. reflexivity.
Defined.

End C2.

(** ** Claim C6: grouping targets by project *)

Module C6.
Import ManifestSplit ModuleInfoFacts TestData.

(** Claim C6: when every path of the module-info table resolves to a repo
    project, [get_module_info] returns a mapping whose set for a project
    holds exactly the targets with some path resolving to that project
    (so a target appears only under the projects of its own paths), and
    every project in the mapping has a non-empty set. *)
Theorem get_module_info_groups (repo_projects : gmap string string)
    (module_info : list (string * list string))
    (Hresolved : forall target paths path, (target, paths) ∈ module_info ->
       path ∈ paths -> is_Some (project_of repo_projects path)) :
  exists m, get_module_info repo_projects module_info = inr m /\
    (forall project target,
       (exists s, m !! project = Some s /\ target ∈ s) <->
       exists paths path, (target, paths) ∈ module_info /\ path ∈ paths /\
         project_of repo_projects path = Some project) /\
    (forall project s, m !! project = Some s -> s <> ∅).
Proof.
  unfold get_module_info.
  destruct (add_modules_total repo_projects module_info ∅)
    as [(t & ps & p & Hin & Hp & [Hnone _])|(m & Hm)].
  { destruct (Hresolved t ps p Hin Hp) as [x Hx]. congruence. }
  exists m. split; [exact Hm|].
  apply add_modules_inr in Hm as [Hne Hm].
  assert (Hne' : nonempty_sets m).
  { apply Hne. intros project s. rewrite lookup_empty. discriminate. }
  split; [|exact Hne'].
  intros project target.
  assert (Hempty : target ∉ targets ∅ project)
    by (unfold targets; rewrite lookup_empty; simpl; set_solver).
  transitivity (target ∈ targets m project).
  - unfold targets. destruct (m !! project) as [s|]; simpl.
    + split; [intros (s' & [= <-] & H); exact H|eauto].
    + split; [intros (s' & [=] & _)|intros H; set_solver].
  - rewrite Hm. split; [intros [H|H]; [contradiction|exact H]|auto].
Qed.

(** The theorem at the table of [test_get_module_info] without its
    [out/] target. *)
Lemma get_module_info_groups_witness :
  exists m, get_module_info module_repo_projects
      [("target1a", ["system/project1"]); ("target1b", ["system/project1"]);
       ("target3", ["vendor/google/project3"])] = inr m /\
    (forall project target,
       (exists s, m !! project = Some s /\ target ∈ s) <->
       exists paths path, (target, paths) ∈
         [("target1a", ["system/project1"]); ("target1b", ["system/project1"]);
          ("target3", ["vendor/google/project3"])] /\ path ∈ paths /\
         project_of module_repo_projects path = Some project) /\
    (forall project s, m !! project = Some s -> s <> ∅).
Proof.
  apply get_module_info_groups.
  intros target paths path Hin Hp.
  apply list_elem_of_In in Hin. simpl in Hin.
  destruct Hin as [Hin|[Hin|[Hin|[]]]]; injection Hin as <- <-;
    apply list_elem_of_In in Hp; destruct Hp as [<-|[]]; vm_compute; eauto.
Defined.

End C6.

(** ** Manifest filtering *)

Module UpdateFacts.
Import ManifestXml.

Lemma filter_projects_keep (input_projects remove_projects : gset string) l :
  List.filter is_project (List.filter (keep_child input_projects remove_projects) l)
  = List.filter (fun c => is_project c && name_in (input_projects ∖ remove_projects) c) l.
Proof.
  induction l as [|c l IH]; simpl; [reflexivity|].
  unfold keep_child, name_in, is_project in *.
  destruct (String.eqb (tag c) "project") eqn:Hp; simpl.
  - destruct (get c "name") as [name|]; simpl; [|exact IH].
    assert (Hb : bool_decide (name ∈ input_projects /\ name ∉ remove_projects)
                 = bool_decide (name ∈ input_projects ∖ remove_projects)).
    { apply bool_decide_ext. rewrite elem_of_difference. reflexivity. }
    rewrite Hb. destruct (bool_decide (name ∈ input_projects ∖ remove_projects)); simpl.
    + rewrite Hp. f_equal. exact IH.
    + exact IH.
  - rewrite Hp. exact IH.
Qed.

Lemma filter_twice {A} (f : A -> bool) (l : list A) :
  List.filter f (List.filter f l) = List.filter f l.
Proof.
  induction l as [|x l IH]; simpl; [reflexivity|].
  destruct (f x) eqn:Hx; simpl; [rewrite Hx, IH; reflexivity|exact IH].
Qed.

End UpdateFacts.

(** ** Claim C3: update_manifest keeps the wanted projects *)

Module C3.
Import ManifestXml UpdateFacts TestData.

(** Claim C3: the project elements of [update_manifest manifest
    input_projects remove_projects] are exactly the project elements of
    [manifest] whose [name] is in [input_projects ∖ remove_projects], in
    manifest order (root tag and attributes unchanged); on the manifest of
    [test_update_manifest] with inputs {platform/project1,
    platform/project3} and removals {platform/project3} only
    platform/project1 is left. *)
Theorem update_manifest_projects (manifest : element)
    (input_projects remove_projects : gset string) :
  tag (update_manifest manifest input_projects remove_projects) = tag manifest /\
  attrib (update_manifest manifest input_projects remove_projects) = attrib manifest /\
  List.filter is_project (children (update_manifest manifest input_projects remove_projects))
  = List.filter (fun c => is_project c && name_in (input_projects ∖ remove_projects) c)
      (children manifest) /\
  List.filter is_project
    (children (update_manifest test_manifest
                 {["platform/project1"; "platform/project3"]} {["platform/project3"]}))
  = [project_element "platform/project1" "system/project1"].
Proof.
  split; [destruct manifest; reflexivity|].
  split; [destruct manifest; reflexivity|].
  split.
  - destruct manifest as [t a c]. simpl. apply filter_projects_keep.
  - vm_compute. reflexivity.
Qed.

End C3.

(** ** Claim C8: update_manifest is idempotent *)

Module C8.
Import ManifestXml UpdateFacts.

(** Claim C8: filtering an already filtered manifest again with the same
    sets changes nothing. *)
Theorem update_manifest_idempotent (manifest : element)
    (input_projects remove_projects : gset string) :
  update_manifest (update_manifest manifest input_projects remove_projects)
    input_projects remove_projects
  = update_manifest manifest input_projects remove_projects.
Proof.
  destruct manifest as [t a c]. unfold update_manifest. simpl.
  rewrite filter_twice. reflexivity.
Qed.

End C8.

(** ** Claim C5: the hash element *)

Module C5.
Import ManifestXml.

(** Claim C5: [create_manifest_sha1_element manifest manifest_name] is a
    [hash] element with [name] = [manifest_name], [type] = [sha1] and
    [value] = the SHA-1 hex digest of [ET.tostring] of the root; in
    [split_manifest] it is appended as the last child, and the serialized
    root it hashes is the output root without that last child. *)
Theorem create_manifest_sha1_element_attrs `{ElementTreeLib} `{HashLib}
    (manifest : element) (manifest_name : string) :
  let h := create_manifest_sha1_element manifest manifest_name in
  tag h = "hash" /\ children h = [] /\
  get h "name" = Some manifest_name /\ get h "type" = Some "sha1" /\
  get h "value" = Some (sha1_hexdigest (tostring manifest)) /\
  let out := add_manifest_sha1 manifest manifest_name in
  last (children out) = Some h /\
  get h "value"
  = Some (sha1_hexdigest (tostring
            (Element (tag out) (attrib out) (removelast (children out))))).
Proof.
  intros h. repeat split.
  - unfold add_manifest_sha1, append. simpl. apply last_snoc.
  - unfold add_manifest_sha1, append. simpl.
    rewrite removelast_last. destruct manifest; reflexivity.
Qed.

End C5.

(** ** Claim C9: reading the config *)

Module C9.
Import ManifestXml TestData.

Example read_config_test :
  read_config_root test_config_root
  = ({["remove1"; "remove2"]}, {["add1"; "add2"]}).
Proof. vm_compute. reflexivity. Qed.

Lemma elem_of_child_names t root name :
  name ∈ child_names t root <->
  exists c, c ∈ children root /\ tag c = t /\ get c "name" = Some name.
Proof.
  unfold child_names. rewrite elem_of_list_to_set, list_elem_of_omap.
  split.
  - intros (c & Hc & Hn). exists c. split; [exact Hc|].
    destruct (String.eqb (tag c) t) eqn:Ht; [|discriminate].
    apply String.eqb_eq in Ht. auto.
  - intros (c & Hc & Ht & Hn). exists c. split; [exact Hc|].
    rewrite Ht, String.eqb_refl. exact Hn.
Qed.

(** Claim C9: [read_config] fails with a parse error on a document the
    parser rejects; otherwise it returns [(remove, add)], the [name]
    attributes of the root's [remove_project] and [add_project] children,
    and two empty sets when the root has no children. *)
Theorem read_config_sets `{ElementTreeLib} (config : string) :
  (fromstring config = None -> read_config config = inl ParseError) /\
  forall root, fromstring config = Some root ->
  exists remove add, read_config config = inr (remove, add) /\
    (forall name, name ∈ remove <->
       exists c, c ∈ children root /\ tag c = "remove_project" /\ get c "name" = Some name) /\
    (forall name, name ∈ add <->
       exists c, c ∈ children root /\ tag c = "add_project" /\ get c "name" = Some name) /\
    (children root = [] -> remove = ∅ /\ add = ∅).
Proof.
  unfold read_config. split.
  - intros ->. reflexivity.
  - intros root ->. eexists _, _. split; [reflexivity|].
    split; [intros name; apply elem_of_child_names|].
    split; [intros name; apply elem_of_child_names|].
    intros Hnil. unfold read_config_root, child_names. rewrite Hnil. split; reflexivity.
Qed.

End C9.

(** ** Path helpers on sample inputs *)

Module PosixPathExamples.
Import PosixPath.

Example normpath_1 : normpath "/a/./b/../c//d/" = "/a/c/d".
Proof. reflexivity. Qed.
Example normpath_2 : normpath "//a/b" = "//a/b".
Proof. reflexivity. Qed.
Example normpath_3 : normpath "../x/.." = "..".
Proof. reflexivity. Qed.
Example abspath_1 : abspath "/home/u" "out" = "/home/u/out".
Proof. reflexivity. Qed.
Example dirname_1 : dirname "/home/u/out" = "/home/u".
Proof. reflexivity. Qed.
Example dirname_2 : dirname "/out" = "/".
Proof. reflexivity. Qed.
Example basename_1 : basename "/home/u/out" = "out".
Proof. reflexivity. Qed.
Example join_1 : join "/meta" ["LINUX/android"; "out"] = "/meta/LINUX/android/out".
Proof. reflexivity. Qed.
Example adb_match_1 : adb_fork_server_match "adb -L tcp:5037 fork-server server" = true.
Proof. reflexivity. Qed.
Example lower_1 : lower "Y" = "y".
Proof. reflexivity. Qed.
Example format_int_1 : format_int (-12)%Z = "-12".
Proof. reflexivity. Qed.

End PosixPathExamples.

(** ** The adb prompt of nsjail.run *)

Module NsJailFacts.
Import PosixPath NsJail.

(** Membership of an event in a trace with a concrete prefix. *)
Ltac trace_cases Hin :=
  apply list_elem_of_In in Hin; simpl in Hin;
  repeat (destruct Hin as [Hin|Hin]; [try congruence|]);
  try contradiction.

Lemma adb_prompt_loop_effects h lines inputs tr r :
  adb_prompt_loop h lines inputs = (tr, r) ->
  (forall o, r = Some o -> adb_stop o) /\
  (forall cmd, CheckCall cmd ∈ tr -> cmd = ["adb"; "kill-server"]).
Proof.
  revert inputs tr r. induction lines as [|line lines IH]; simpl; intros inputs tr r Hrun.
  - injection Hrun as <- <-. split; [discriminate|]. intros cmd Hin. trace_cases Hin.
  - destruct (adb_fork_server_match line); [|eapply IH; exact Hrun].
    destruct inputs as [|answer inputs].
    { injection Hrun as <- <-. split; [intros o [= <-]; unfold adb_stop; auto|].
      intros cmd Hin. trace_cases Hin. }
    destruct (negb (String.eqb (lower answer) "y")).
    { injection Hrun as <- <-. split; [intros o [= <-]; unfold adb_stop; auto|].
      intros cmd Hin. trace_cases Hin. }
    destruct (negb (exits_ok h ["adb"; "kill-server"])).
    { injection Hrun as <- <-. split; [intros o [= <-]; unfold adb_stop; auto 10|].
      intros cmd Hin. trace_cases Hin. }
    destruct (adb_prompt_loop h lines inputs) as [tr' r'] eqn:Hloop.
    injection Hrun as <- <-.
    apply IH in Hloop as [Hr Htr]. split; [exact Hr|].
    intros cmd Hin. trace_cases Hin. apply Htr, list_elem_of_In, Hin.
Qed.

Lemma kill_adb_server_effects h tr r :
  kill_adb_server h = (tr, r) ->
  (forall o, r = Some o -> adb_stop o) /\
  (forall cmd, CheckCall cmd ∈ tr -> cmd = ["adb"; "kill-server"]).
Proof.
  unfold kill_adb_server. destruct (negb (exits_ok h ["ps"; "-eo"; "cmd"])).
  - intros [= <- <-]. split.
    + intros o [= <-]. unfold adb_stop. auto 10.
    + intros cmd Hin. apply elem_of_cons in Hin as [Hin|Hin]; [discriminate|].
      apply elem_of_nil in Hin as [].
  - destruct (adb_prompt_loop h _ _) as [tr' r'] eqn:Hloop. intros [= <- <-].
    apply adb_prompt_loop_effects in Hloop as [Hr Htr]. split; [exact Hr|].
    intros cmd Hin. apply elem_of_cons in Hin as [Hin|Hin]; [discriminate|auto].
Qed.

Lemma normpath_nonempty path : String.eqb (normpath path) "" = false.
Proof.
  unfold normpath. destruct (String.eqb path "") eqn:E; [reflexivity|].
  match goal with |- context [if String.eqb ?p "" then _ else _] =>
    destruct (String.eqb p "") eqn:E' end; [reflexivity|exact E'].
Qed.

Lemma truthy_abspath_if cwd o : truthy (abspath_if cwd o) = truthy o.
Proof.
  unfold abspath_if. destruct (truthy o) eqn:Ho; [|exact Ho].
  destruct o as [s|]; [|discriminate]. simpl.
  unfold abspath. rewrite normpath_nonempty. reflexivity.
Qed.

End NsJailFacts.

(** ** Claim C10: a non-relative meta_android_dir is rejected *)

Module C10.
Import PosixPath NsJail NsJailData NsJailFacts.

(** Claim C10 as stated fails: with [mount_local_device] and an adb server
    running, a user who answers [n] at the prompt makes [run] call
    [exit()] before the [meta_android_dir] check, so no [ValueError] is
    raised although [meta_root_dir] is set and [meta_android_dir] is
    absolute. *)
Lemma run_exits_before_meta_check :
  truthy (meta_root_dir (meta_call true)) = true /\
  isabs (default "" (meta_android_dir (meta_call true))) = true /\
  snd (run adb_host (meta_call true)) = SystemExit /\
  snd (run adb_host (meta_call true)) <> ValueError meta_android_dir_error.
Proof. vm_compute. repeat split; discriminate. Qed.

(** Claim C10 (amended): when [meta_root_dir] is non-empty and
    [meta_android_dir] is empty, [None] or absolute, [run] neither returns
    nor runs an nsjail command.  Without [mount_local_device] it raises
    [ValueError] with no effect before it; with [mount_local_device] it
    raises that [ValueError] unless the adb check ends it first ([exit()]
    on a declined prompt, [EOFError] at end of input, or a failing [ps] or
    [adb kill-server]); the only subprocess it may run is
    [adb kill-server]. *)
Theorem run_rejects_meta_android_dir `{OverlayLib} (h : host) (a : run_args)
    (Hroot : truthy (meta_root_dir a) = true)
    (Hdir : truthy (meta_android_dir a) = false \/
            isabs (default "" (meta_android_dir a)) = true) :
  (mount_local_device a = false -> run h a = ([], ValueError meta_android_dir_error)) /\
  (snd (run h a) = ValueError meta_android_dir_error \/
   (mount_local_device a = true /\ adb_stop (snd (run h a)))) /\
  (forall cmd, snd (run h a) <> Returned cmd) /\
  (forall cmd, CheckCall cmd ∈ fst (run h a) -> cmd = ["adb"; "kill-server"]).
Proof.
  assert (Hcheck :
    truthy (abspath_if (cwd h) (meta_root_dir a))
    && (negb (truthy (meta_android_dir a)) || isabs (default "" (meta_android_dir a)))
    = true).
  { rewrite truthy_abspath_if, Hroot. simpl.
    destruct Hdir as [Hd|Hd]; rewrite Hd; [reflexivity|apply orb_true_r]. }
  assert (Hrun : exists tr0 stopped,
    (if mount_local_device a then kill_adb_server h else ([], None)) = (tr0, stopped) /\
    run h a = match stopped with
              | Some o => (tr0, o)
              | None => (tr0, ValueError meta_android_dir_error)
              end).
  { unfold run.
    destruct (if mount_local_device a then kill_adb_server h else ([], None))
      as [tr0 stopped] eqn:Hk.
    exists tr0, stopped. split; [reflexivity|].
    destruct stopped as [o|]; [reflexivity|].
    cbv zeta. rewrite Hcheck. reflexivity. }
  destruct Hrun as (tr0 & stopped & Hk & ->).
  destruct (mount_local_device a) eqn:Hm.
  - apply kill_adb_server_effects in Hk as [Hstop Htr].
    split; [discriminate|].
    destruct stopped as [o|]; simpl.
    + split; [right; split; [reflexivity|apply Hstop; reflexivity]|].
      split; [|exact Htr].
      intros cmd ->. destruct (Hstop _ eq_refl) as [?|[?|[?|?]]]; discriminate.
    + split; [by left|]. split; [discriminate|exact Htr].
  - injection Hk as <- <-. simpl.
    split; [reflexivity|]. split; [by left|]. split; [discriminate|].
    intros cmd Hin. apply elem_of_nil in Hin as [].
Qed.

(** The theorem at the call of [run_exits_before_meta_check] without
    [mount_local_device]. *)
Lemma run_rejects_meta_android_dir_witness :
  run adb_host (meta_call false) = ([], ValueError meta_android_dir_error).
Proof.
  apply (run_rejects_meta_android_dir adb_host (meta_call false)).
  - reflexivity.
  - right. reflexivity.
  - reflexivity.
Defined.

End C10.

(** ** Further properties of nsjail.run *)

Module RunFacts.
Import PosixPath NsJail NsJailFacts.

Lemma string_length_app (s1 s2 : string) :
  String.length (s1 ++ s2) = String.length s1 + String.length s2.
Proof. induction s1 as [|c s1 IH]; simpl; [reflexivity|]. rewrite IH. reflexivity. Qed.

Lemma infix_of_refl l : infix_of l l.
Proof. exists [], []. rewrite app_nil_r. reflexivity. Qed.

Lemma infix_of_app_r l m p : infix_of l m -> infix_of l (p ++ m)%list.
Proof. intros (k1 & k2 & ->). exists (p ++ k1)%list, k2. by rewrite app_assoc. Qed.

Lemma infix_of_app_l l m p : infix_of l m -> infix_of l (m ++ p)%list.
Proof. intros (k1 & k2 & ->). exists k1, (k2 ++ p)%list. by rewrite <- !app_assoc. Qed.

Lemma infix_of_cons l m x : infix_of l m -> infix_of l (x :: m).
Proof. intros H. apply (infix_of_app_r l m [x]), H. Qed.

Lemma infix_of_prefix l m : infix_of l (l ++ m)%list.
Proof. exists [], m. reflexivity. Qed.

Lemma infix_of_hd1 x m : infix_of [x] (x :: m).
Proof. exact (infix_of_prefix [x] m). Qed.

Lemma infix_of_hd2 x y m : infix_of [x; y] (x :: y :: m).
Proof. exact (infix_of_prefix [x; y] m). Qed.

Lemma infix_of_flat_map {A} (f : A -> list string) (l : list A) x :
  x ∈ l -> infix_of (f x) (flat_map f l).
Proof.
  induction l as [|y l IH]; simpl; intros Hin; [apply elem_of_nil in Hin as []|].
  apply elem_of_cons in Hin as [->|Hin].
  - apply infix_of_app_l, infix_of_refl.
  - apply infix_of_app_r, IH, Hin.
Qed.

Lemma od_set_in d key value : (key, value) ∈ od_set d key value.
Proof.
  induction d as [|[k v] d IH]; simpl; [by left|].
  destruct (String.eqb k key) eqn:E.
  - apply String.eqb_eq in E. subst. by left.
  - by right.
Qed.

Lemma od_set_keep d key value k v :
  k <> key -> (k, v) ∈ d -> (k, v) ∈ od_set d key value.
Proof.
  intros Hne. induction d as [|[k' v'] d IH]; simpl; intros Hin;
    [apply elem_of_nil in Hin as []|].
  destruct (String.eqb k' key) eqn:E.
  - apply String.eqb_eq in E. subst k'.
    apply elem_of_cons in Hin as [[= -> ->]|Hin]; [congruence|]. by right.
  - apply elem_of_cons in Hin as [Heq|Hin]; [rewrite Heq; by left|]. right. auto.
Qed.

Lemma join2_rel a b :
  startswith b "/" = false ->
  exists r, join2 a b = a ++ r /\ String.length b <= String.length r.
Proof.
  unfold join2. intros ->.
  destruct (String.eqb a "" || endswith_slash a).
  - exists b. split; [reflexivity|lia].
  - exists (String slash b). split; [reflexivity|simpl; lia].
Qed.

Lemma string_app_neq (s r : string) : r <> "" -> s <> s ++ r.
Proof.
  intros Hr Heq. apply (f_equal String.length) in Heq.
  rewrite string_length_app in Heq. destruct r; [congruence|simpl in Heq; lia].
Qed.

Lemma truthy_Some_true o : String.eqb o "" = false -> truthy (Some o) = true.
Proof. intros E. unfold truthy. rewrite E. reflexivity. Qed.

Lemma abspath_if_Some c o :
  String.eqb o "" = false -> abspath_if c (Some o) = Some (abspath c o).
Proof. intros E. unfold abspath_if. rewrite truthy_Some_true by exact E. reflexivity. Qed.

Lemma meta_test_ok c a :
  meta_ok a = true ->
  truthy (abspath_if c (meta_root_dir a))
  && (negb (truthy (meta_android_dir a)) || isabs (default "" (meta_android_dir a))) = false.
Proof.
  rewrite truthy_abspath_if. unfold meta_ok.
  destruct (truthy (meta_root_dir a)); [|reflexivity]. simpl.
  destruct (truthy (meta_android_dir a)); [|discriminate]. simpl.
  destruct (isabs _); [discriminate|reflexivity].
Qed.

Lemma meta_test_bad c a :
  meta_ok a = false ->
  truthy (abspath_if c (meta_root_dir a))
  && (negb (truthy (meta_android_dir a)) || isabs (default "" (meta_android_dir a))) = true.
Proof.
  rewrite truthy_abspath_if. unfold meta_ok.
  destruct (truthy (meta_root_dir a)); [|discriminate]. simpl.
  destruct (truthy (meta_android_dir a)); [|reflexivity]. simpl.
  destruct (isabs _); [reflexivity|discriminate].
Qed.

(** Unfold [run] past the adb check and the [meta_android_dir] test. *)
Ltac open_run Hadb Hmeta :=
  unfold adb_check in Hadb; unfold run; rewrite Hadb; cbv zeta; cbv beta iota;
  rewrite (meta_test_ok _ _ Hmeta).

Lemma run_ok_shape `{OverlayLib} h a tr0 :
  adb_check h a = (tr0, None) -> meta_ok a = true ->
  exists cmd tr_mk,
    (forall e, e ∈ tr_mk -> exists d, e = Makedirs d) /\
    run h a =
      (if dry_run a
       then ((tr0 ++ tr_mk ++ (if quiet a then []
              else [Print "NsJail command:"; Print (join_space cmd)]))%list, Returned cmd)
       else (((tr0 ++ tr_mk ++ (if quiet a then []
              else [Print "NsJail command:"; Print (join_space cmd)])) ++ [CheckCall cmd])%list,
             if exits_ok h cmd then Returned cmd else CalledProcessError cmd)).
Proof.
  intros Hadb Hmeta. open_run Hadb Hmeta.
  eexists _, _. split; [|reflexivity].
  intros e Hin. destruct (_ && negb _); [|apply elem_of_nil in Hin as []].
  apply elem_of_cons in Hin as [->|Hin]; [eauto|apply elem_of_nil in Hin as []].
Qed.

(** The keys [run] gives the mounts under [/meta]. *)
Lemma join_meta mad :
  isabs mad = false -> join _META_MOUNT_POINT [mad] = "/meta" ++ String slash mad.
Proof.
  intros Habs. change (join2 _META_MOUNT_POINT mad = "/meta" ++ String slash mad).
  unfold join2. unfold isabs in Habs. rewrite Habs. reflexivity.
Qed.

Lemma join_meta_out mad :
  exists r, join _META_MOUNT_POINT [mad; "out"] = join _META_MOUNT_POINT [mad] ++ r /\
    r <> "".
Proof.
  change (join _META_MOUNT_POINT [mad; "out"])
    with (join2 (join _META_MOUNT_POINT [mad]) "out").
  destruct (join2_rel (join _META_MOUNT_POINT [mad]) "out" eq_refl) as (r & -> & Hr).
  exists r. split; [reflexivity|]. intros ->. simpl in Hr. lia.
Qed.

Lemma string_app_assoc (s1 s2 s3 : string) : s1 ++ s2 ++ s3 = (s1 ++ s2) ++ s3.
Proof.
  induction s1 as [|c s1 IH]; [reflexivity|].
  change (String c (s1 ++ s2 ++ s3) = String c ((s1 ++ s2) ++ s3)). rewrite IH. reflexivity.
Qed.

Ltac key_neq :=
  let Heq := fresh "Heq" in
  intros Heq;
  first [ refine (string_app_neq _ _ _ Heq); first [discriminate|assumption]
        | refine (string_app_neq _ _ _ (eq_sym Heq)); first [discriminate|assumption]
        | rewrite <- string_app_assoc in Heq;
          refine (string_app_neq _ _ _ (eq_sym Heq)); first [discriminate|assumption]
        | cbv beta iota delta [String.append _META_MOUNT_POINT _SOURCE_MOUNT_POINT
                               _OUT_MOUNT_POINT _DIST_MOUNT_POINT] in Heq;
          discriminate ].

Ltac od_set_mem :=
  repeat first [ apply od_set_in | apply od_set_keep; [key_neq|] ].

Section FinalMounts.
Variables (B : list (string * string)) (to td tm : bool) (od dd mr mad src : string).
Hypothesis Hmad : tm = true -> isabs mad = false.

(** The mount table after lines 176-202 of [run]. *)
Local Abbreviation B1 :=
  (if td then od_set (if to then od_set B _OUT_MOUNT_POINT od else B) _DIST_MOUNT_POINT dd
   else (if to then od_set B _OUT_MOUNT_POINT od else B)).
Local Abbreviation L :=
  (if tm then
     (if to then od_set (od_set (od_set B1 _META_MOUNT_POINT mr)
                                (join _META_MOUNT_POINT [mad]) src)
                        (join _META_MOUNT_POINT [mad; "out"]) od
      else od_set (od_set B1 _META_MOUNT_POINT mr) (join _META_MOUNT_POINT [mad]) src)
   else B1).

Ltac meta_keys :=
  let r := fresh "r" in let Hr := fresh "Hr" in
  destruct (join_meta_out mad) as (r & -> & Hr);
  rewrite (join_meta mad (Hmad eq_refl)).

Lemma final_mounts_src v :
  (_SOURCE_MOUNT_POINT, v) ∈ B -> (_SOURCE_MOUNT_POINT, v) ∈ L.
Proof.
  intros Hin. destruct tm; [meta_keys|]; destruct to, td; simpl; od_set_mem; exact Hin.
Qed.

Lemma final_mounts_out : to = true -> (_OUT_MOUNT_POINT, od) ∈ L.
Proof. intros ->. destruct tm; [meta_keys|]; destruct td; simpl; od_set_mem. Qed.

Lemma final_mounts_dist : td = true -> (_DIST_MOUNT_POINT, dd) ∈ L.
Proof. intros ->. destruct tm; [meta_keys|]; destruct to; simpl; od_set_mem. Qed.

Lemma final_mounts_meta : tm = true -> (_META_MOUNT_POINT, mr) ∈ L.
Proof. intros ->. meta_keys. destruct to, td; simpl; od_set_mem. Qed.

Lemma final_mounts_meta_src : tm = true -> (join _META_MOUNT_POINT [mad], src) ∈ L.
Proof. intros ->. meta_keys. destruct to, td; simpl; od_set_mem. Qed.

Lemma final_mounts_meta_out :
  tm = true -> to = true -> (join _META_MOUNT_POINT [mad; "out"], od) ∈ L.
Proof. intros -> ->. destruct td; simpl; od_set_mem. Qed.

End FinalMounts.

Lemma infix_of_flat_map' {A} (f : A -> list string) (l : list A) x y :
  x ∈ l -> f x = y -> infix_of y (flat_map f l).
Proof. intros Hin <-. apply infix_of_flat_map, Hin. Qed.

Lemma infix_of_singleton x m : infix_of [x] m -> x ∈ m.
Proof. intros (k1 & k2 & ->). apply elem_of_app. right. by left. Qed.

(** Search the right-nested appends of a command for a run [tac] proves. *)
Ltac find_infix tac :=
  first [ tac
        | apply infix_of_cons; find_infix tac
        | apply infix_of_app_r; find_infix tac
        | apply infix_of_app_l; find_infix tac ].

(** The outcome of a run that got past the checks names its command. *)
Ltac run_outcome :=
  destruct (dry_run _); [left; reflexivity|];
  destruct (exits_ok _ _); [left|right]; reflexivity.

Lemma adb_prompt_loop_events h lines inputs tr r :
  adb_prompt_loop h lines inputs = (tr, r) ->
  forall e, e ∈ tr ->
    (exists s, e = Print s) \/ e = ReadInput \/ e = CheckCall ["adb"; "kill-server"].
Proof.
  revert inputs tr r. induction lines as [|line lines IH]; simpl; intros inputs tr r Hrun.
  - injection Hrun as <- <-. intros e Hin. apply elem_of_nil in Hin as [].
  - destruct (adb_fork_server_match line); [|eapply IH; exact Hrun].
    destruct inputs as [|answer inputs].
    { injection Hrun as <- <-. intros e Hin.
      apply list_elem_of_In in Hin. simpl in Hin. naive_solver. }
    destruct (negb (String.eqb (lower answer) "y")).
    { injection Hrun as <- <-. intros e Hin.
      apply list_elem_of_In in Hin. simpl in Hin. naive_solver. }
    destruct (negb (exits_ok h ["adb"; "kill-server"])).
    { injection Hrun as <- <-. intros e Hin.
      apply list_elem_of_In in Hin. simpl in Hin. naive_solver. }
    destruct (adb_prompt_loop h lines inputs) as [tr' r'] eqn:Hloop.
    injection Hrun as <- <-. intros e Hin.
    apply list_elem_of_In in Hin. simpl in Hin.
    destruct Hin as [<-|[<-|[<-|[<-|Hin]]]]; eauto.
    eapply IH; [exact Hloop|]. apply list_elem_of_In, Hin.
Qed.

(** The events of the adb check: [ps], prompts, reads and [adb kill-server]. *)
Lemma adb_check_events h a tr r :
  adb_check h a = (tr, r) ->
  forall e, e ∈ tr ->
    e = CheckOutput ["ps"; "-eo"; "cmd"] \/ (exists s, e = Print s) \/ e = ReadInput \/
    e = CheckCall ["adb"; "kill-server"].
Proof.
  unfold adb_check. destruct (mount_local_device a).
  - unfold kill_adb_server. destruct (negb (exits_ok h ["ps"; "-eo"; "cmd"])).
    + intros [= <- <-] e Hin. apply elem_of_cons in Hin as [->|Hin]; [by left|].
      apply elem_of_nil in Hin as [].
    + destruct (adb_prompt_loop h _ _) as [tr' r'] eqn:Hloop. intros [= <- <-] e Hin.
      apply elem_of_cons in Hin as [->|Hin]; [by left|].
      right. eapply adb_prompt_loop_events; eauto.
  - intros [= <- <-] e Hin. apply elem_of_nil in Hin as [].
Qed.

Lemma adb_check_calls h a tr r :
  adb_check h a = (tr, r) -> forall c, CheckCall c ∈ tr -> c = ["adb"; "kill-server"].
Proof.
  intros Hk c Hin. destruct (adb_check_events h a tr r Hk _ Hin) as [?|[[? ?]|[?|?]]];
    congruence.
Qed.

Lemma adb_check_stop h a tr o : adb_check h a = (tr, Some o) -> adb_stop o.
Proof.
  unfold adb_check. destruct (mount_local_device a); [|discriminate].
  intros Hk. apply kill_adb_server_effects in Hk as [Hs _]. apply Hs. reflexivity.
Qed.

(** The three ways [run] goes: the adb check ends it, the
    [meta_android_dir] test rejects the call, or it builds a command. *)
Lemma run_cases `{OverlayLib} h a :
  (exists o, adb_check h a = (fst (run h a), Some o) /\ snd (run h a) = o) \/
  (adb_check h a = (fst (run h a), None) /\ meta_ok a = false /\
   snd (run h a) = ValueError meta_android_dir_error) \/
  (exists tr0, adb_check h a = (tr0, None) /\ meta_ok a = true).
Proof.
  destruct (adb_check h a) as [tr0 [o|]] eqn:Hadb.
  - left. exists o. unfold adb_check in Hadb. unfold run. rewrite Hadb. auto.
  - destruct (meta_ok a) eqn:Hm; [right; right; eauto|right; left].
    unfold adb_check in Hadb. unfold run. rewrite Hadb. cbv zeta; cbv beta iota.
    rewrite (meta_test_bad _ _ Hm). auto.
Qed.

Lemma run_value_error_cases `{OverlayLib} h a m :
  snd (run h a) = ValueError m ->
  meta_ok a = false /\ m = meta_android_dir_error /\
  adb_check h a = (fst (run h a), None).
Proof.
  intros Hv. destruct (run_cases h a) as [[o [Hk Ho]]|[[Hk [Hm Ho]]|[tr0 [Hk Hm]]]].
  - apply adb_check_stop in Hk. rewrite Ho in Hv. subst o.
    destruct Hk as [?|[?|[?|?]]]; discriminate.
  - rewrite Ho in Hv. injection Hv as <-. auto.
  - destruct (run_ok_shape h a tr0 Hk Hm) as (cmd & tr_mk & _ & Hrun).
    rewrite Hrun in Hv. destruct (dry_run a); [discriminate|].
    destruct (exits_ok h cmd); discriminate.
Qed.

Lemma meta_mad_rel c a :
  meta_ok a = true -> truthy (abspath_if c (meta_root_dir a)) = true ->
  isabs (default "" (meta_android_dir a)) = false.
Proof.
  rewrite truthy_abspath_if. unfold meta_ok. intros Hm Hr. rewrite Hr in Hm. simpl in Hm.
  apply andb_true_iff in Hm as [_ Hm]. by apply negb_true_iff in Hm.
Qed.

Lemma truthy_abspath c o : truthy (Some (abspath c o)) = true.
Proof. unfold truthy, abspath. rewrite normpath_nonempty. reflexivity. Qed.

Lemma meta_mad_rel' a :
  meta_ok a = true -> truthy (meta_root_dir a) = true ->
  isabs (default "" (meta_android_dir a)) = false.
Proof.
  unfold meta_ok. intros Hm Hr. rewrite Hr in Hm. simpl in Hm.
  apply andb_true_iff in Hm as [_ Hm]. by apply negb_true_iff in Hm.
Qed.

Lemma bindmount_in (l : list (string * string)) d s :
  (d, s) ∈ l ->
  infix_of ["--bindmount"; s ++ ":" ++ d]
    (flat_map (fun '(bind_destination, bind_source) =>
                 ["--bindmount"; bind_source ++ ":" ++ bind_destination]) l).
Proof. intros Hin. exact (infix_of_flat_map' _ _ (d, s) _ Hin eq_refl). Qed.

(** The test of lines 169-174 for creating [out_dir]. *)
Lemma out_cond_iff h c s (o_opt : option string) d :
  ((truthy (abspath_if c o_opt)
    && String.eqb (dirname (default "" (abspath_if c o_opt))) s
    && negb (String.eqb (basename (default "" (abspath_if c o_opt))) "out")
    && negb (path_exists h (default "" (abspath_if c o_opt))) = true)
   /\ d = default "" (abspath_if c o_opt)) <->
  (exists o, o_opt = Some o /\ String.eqb o "" = false /\ d = abspath c o) /\
  dirname d = s /\ basename d <> "out" /\ path_exists h d = false.
Proof.
  destruct o_opt as [o|]; [destruct (String.eqb o "") eqn:E|].
  - unfold abspath_if, truthy. simpl.
    split; [intros [Hc _]; repeat (rewrite E in Hc; simpl in Hc); discriminate Hc|].
    intros [(o' & [= <-] & E' & _) _]. congruence.
  - rewrite (abspath_if_Some _ _ E), truthy_abspath. cbn [from_option id].
    split.
    + intros [Hc ->]. apply andb_true_iff in Hc as [Hc Hp].
      apply andb_true_iff in Hc as [Hc Hb]. apply andb_true_iff in Hc as [_ Hd].
      apply String.eqb_eq in Hd. apply negb_true_iff in Hb, Hp.
      apply String.eqb_neq in Hb. eauto 10.
    + intros [(o' & [= <-] & _ & ->) (Hd & Hb & Hp)]. split; [|reflexivity].
      rewrite Hd, String.eqb_refl, Hp. apply String.eqb_neq in Hb. rewrite Hb. reflexivity.
  - unfold abspath_if, truthy. simpl. split; [intros [Hc _]; discriminate Hc|].
    intros [(o' & [=] & _) _].
Qed.

Lemma makedirs_in tr0 mk ps d :
  (forall e, e ∈ tr0 -> forall d', e <> Makedirs d') ->
  Makedirs d ∉ ps ->
  Makedirs d ∈ (tr0 ++ mk ++ ps)%list <-> Makedirs d ∈ mk.
Proof.
  intros H0 Hps. rewrite !elem_of_app. split; [|auto].
  intros [Hin|[Hin|Hin]]; [exfalso; exact (H0 _ Hin d eq_refl)|exact Hin|contradiction].
Qed.

Lemma adb_check_no_makedirs h a tr r :
  adb_check h a = (tr, r) -> forall e, e ∈ tr -> forall d, e <> Makedirs d.
Proof.
  intros Hk e Hin d ->.
  destruct (adb_check_events h a tr r Hk _ Hin) as [?|[[? ?]|[?|?]]]; discriminate.
Qed.

Lemma run_makedirs_mem `{OverlayLib} h a tr0 d :
  adb_check h a = (tr0, None) -> meta_ok a = true ->
  Makedirs d ∈ fst (run h a) <->
  ((truthy (abspath_if (cwd h) (out_dir a))
    && String.eqb (dirname (default "" (abspath_if (cwd h) (out_dir a))))
                  (if String.eqb (source_dir a) "" then source_dir a
                   else abspath (cwd h) (source_dir a))
    && negb (String.eqb (basename (default "" (abspath_if (cwd h) (out_dir a)))) "out")
    && negb (path_exists h (default "" (abspath_if (cwd h) (out_dir a)))) = true)
   /\ d = default "" (abspath_if (cwd h) (out_dir a))).
Proof.
  intros Hadb Hmeta. pose proof (adb_check_no_makedirs h a _ _ Hadb) as H0.
  open_run Hadb Hmeta.
  destruct (_ && negb (path_exists h _)) eqn:Hc.
  - destruct (dry_run a); cbn [fst]; [|rewrite <- !app_assoc];
      (rewrite makedirs_in; [|exact H0|destruct (quiet a); intros Hin; trace_cases Hin]);
      (split; [intros Hin; apply elem_of_cons in Hin as [[= ->]|Hin];
                 [auto|apply elem_of_nil in Hin as []]
              |intros [_ ->]; by left]).
  - destruct (dry_run a); cbn [fst]; [|rewrite <- !app_assoc];
      (rewrite makedirs_in; [|exact H0|destruct (quiet a); intros Hin; trace_cases Hin]);
      (split; [intros Hin; apply elem_of_nil in Hin as []|intros [[=] _]]).
Qed.

End RunFacts.

(** ** Properties of nsjail.run read off the source *)

Module RunExtras.
Import PosixPath NsJail NsJailData NsJailFacts RunFacts.

(** Lines 144-231: once past the adb check and the [meta_android_dir]
    test, [run] returns or executes a command that starts with the nsjail
    binary, [--env USER=android-build] and [--config] with the
    [nsjail.cfg] next to the script, and ends with the extra nsjail
    arguments, [--] and the user command; an absolute [nsjail_bin] is used
    as given. *)
Theorem run_command_frame `{OverlayLib} (h : host) (a : run_args) (tr0 : list event)
    (Hadb : adb_check h a = (tr0, None)) (Hmeta : meta_ok a = true) :
  exists bin cmd,
    (snd (run h a) = Returned cmd \/ snd (run h a) = CalledProcessError cmd) /\
    [bin; "--env"; "USER=android-build"; "--config"; join (script_dir h) ["nsjail.cfg"]]
      `prefix_of` cmd /\
    (isabs (nsjail_bin a) = true -> bin = nsjail_bin a) /\
    (extra_nsjail_args a ++ "--" :: command a)%list `suffix_of` cmd.
Proof.
  open_run Hadb Hmeta. eexists _, _. split; [run_outcome|].
  split; [apply prefix_app_r; reflexivity|]. split.
  - intros Habs. destruct (String.eqb (nsjail_bin a) ""); [reflexivity|].
    unfold join. cbn [fold_left]. unfold join2.
    unfold isabs in Habs. rewrite Habs. reflexivity.
  - repeat first [reflexivity | apply suffix_app_r].
Qed.

Lemma run_command_frame_witness :
  exists bin cmd,
    (snd (run adb_host meta_call_ok) = Returned cmd \/
     snd (run adb_host meta_call_ok) = CalledProcessError cmd) /\
    [bin; "--env"; "USER=android-build"; "--config";
     join (script_dir adb_host) ["nsjail.cfg"]] `prefix_of` cmd /\
    (isabs (nsjail_bin meta_call_ok) = true -> bin = nsjail_bin meta_call_ok) /\
    (extra_nsjail_args meta_call_ok ++ "--" :: command meta_call_ok)%list `suffix_of` cmd.
Proof. apply (run_command_frame adb_host meta_call_ok []); vm_compute; reflexivity. Defined.

(** Lines 237-240: with [dry_run] the only subprocess [run] may start is
    [adb kill-server], and any [CalledProcessError] it raises comes from
    [ps] or [adb kill-server], never from nsjail. *)
Theorem run_dry_run_no_exec `{OverlayLib} (h : host) (a : run_args)
    (Hdry : dry_run a = true) :
  (forall c, CheckCall c ∈ fst (run h a) -> c = ["adb"; "kill-server"]) /\
  (forall c, snd (run h a) = CalledProcessError c ->
             c = ["ps"; "-eo"; "cmd"] \/ c = ["adb"; "kill-server"]).
Proof.
  destruct (run_cases h a) as [[o [Hk Ho]]|[[Hk [Hm Ho]]|[tr0 [Hk Hm]]]].
  - split; [exact (adb_check_calls h a _ _ Hk)|]. intros c Hc.
    pose proof (adb_check_stop _ _ _ _ Hk) as Hs. rewrite Ho in Hc.
    destruct Hs as [?|[?|[?|?]]]; [congruence|congruence|left|right]; congruence.
  - split; [exact (adb_check_calls h a _ _ Hk)|]. rewrite Ho. discriminate.
  - destruct (run_ok_shape h a tr0 Hk Hm) as (cmd & tr_mk & Hmk & ->).
    rewrite Hdry. cbn [fst snd]. split; [|discriminate].
    intros c Hin. apply elem_of_app in Hin as [Hin|Hin];
      [exact (adb_check_calls h a _ _ Hk c Hin)|].
    apply elem_of_app in Hin as [Hin|Hin]; [destruct (Hmk _ Hin); discriminate|].
    destruct (quiet a); trace_cases Hin.
Qed.

Lemma run_dry_run_no_exec_witness :
  dry_run (meta_call_ok) = true /\
  (forall c, CheckCall c ∈ fst (run adb_host meta_call_ok) -> c = ["adb"; "kill-server"]).
Proof.
  split; [reflexivity|].
  apply (run_dry_run_no_exec adb_host meta_call_ok). reflexivity.
Defined.

(** Lines 233-240: without [dry_run], once past the checks, [run] ends by
    executing one command, the one it printed (unless [quiet]), with no
    other subprocess but [adb kill-server]; it returns when that command
    exits with status 0 and raises [CalledProcessError] for it otherwise. *)
Theorem run_executes_command `{OverlayLib} (h : host) (a : run_args) (tr0 : list event)
    (Hadb : adb_check h a = (tr0, None)) (Hmeta : meta_ok a = true)
    (Hdry : dry_run a = false) :
  exists cmd,
    last (fst (run h a)) = Some (CheckCall cmd) /\
    (forall c, CheckCall c ∈ fst (run h a) -> c = cmd \/ c = ["adb"; "kill-server"]) /\
    ((snd (run h a) = Returned cmd /\ exits_ok h cmd = true) \/
     (snd (run h a) = CalledProcessError cmd /\ exits_ok h cmd = false)) /\
    (quiet a = false -> Print (join_space cmd) ∈ fst (run h a)).
Proof.
  destruct (run_ok_shape h a tr0 Hadb Hmeta) as (cmd & tr_mk & Hmk & ->).
  rewrite Hdry. exists cmd. cbn [fst snd].
  split; [apply last_snoc|]. split.
  - intros c Hin. apply elem_of_app in Hin as [Hin|Hin].
    + apply elem_of_app in Hin as [Hin|Hin];
        [right; exact (adb_check_calls h a _ _ Hadb c Hin)|].
      apply elem_of_app in Hin as [Hin|Hin]; [destruct (Hmk _ Hin); discriminate|].
      destruct (quiet a); trace_cases Hin.
    + apply elem_of_cons in Hin as [[= ->]|Hin]; [by left|apply elem_of_nil in Hin as []].
  - split; [destruct (exits_ok h cmd); auto|].
    intros Hq. rewrite Hq. apply elem_of_app; left.
    apply elem_of_app; right. apply elem_of_app; right.
    apply elem_of_cons; right. apply elem_of_cons; by left.
Qed.

(** A host on which every command succeeds and no adb server runs. *)
Lemma run_executes_command_witness :
  exists cmd,
    last (fst (run adb_host (meta_call_exec false))) = Some (CheckCall cmd) /\
    (forall c, CheckCall c ∈ fst (run adb_host (meta_call_exec false)) ->
               c = cmd \/ c = ["adb"; "kill-server"]) /\
    ((snd (run adb_host (meta_call_exec false)) = Returned cmd /\ exits_ok adb_host cmd = true) \/
     (snd (run adb_host (meta_call_exec false)) = CalledProcessError cmd /\
      exits_ok adb_host cmd = false)) /\
    (quiet (meta_call_exec false) = false ->
     Print (join_space cmd) ∈ fst (run adb_host (meta_call_exec false))).
Proof. apply (run_executes_command adb_host (meta_call_exec false) []); vm_compute; reflexivity. Defined.

(** Lines 233-235: with [quiet] [run] prints nothing beyond the adb prompt, and
    a command it returns carries [--quiet] (lines 163-164). *)
Theorem run_quiet `{OverlayLib} (h : host) (a : run_args) (Hq : quiet a = true) :
  (forall s, Print s ∈ fst (run h a) -> Print s ∈ fst (adb_check h a)) /\
  (forall c, snd (run h a) = Returned c -> "--quiet" ∈ c).
Proof.
  destruct (run_cases h a) as [[o [Hk Ho]]|[[Hk [Hm Ho]]|[tr0 [Hk Hm]]]].
  - rewrite Hk. split; [auto|]. intros c Hc. pose proof (adb_check_stop _ _ _ _ Hk) as Hs.
    rewrite Ho in Hc. destruct Hs as [?|[?|[?|?]]]; congruence.
  - rewrite Hk, Ho. split; [auto|discriminate].
  - split.
    + destruct (run_ok_shape h a tr0 Hk Hm) as (cmd & tr_mk & Hmk & ->). rewrite Hk, Hq.
      intros s Hin. cbn [fst].
      assert (Hin' : Print s ∈ (tr0 ++ tr_mk ++ [])%list).
      { destruct (dry_run a); [exact Hin|].
        apply elem_of_app in Hin as [Hin|Hin]; [exact Hin|trace_cases Hin]. }
      apply elem_of_app in Hin' as [Hin'|Hin']; [exact Hin'|].
      rewrite app_nil_r in Hin'. destruct (Hmk _ Hin'); discriminate.
    + intros c. open_run Hk Hm. rewrite Hq.
      destruct (dry_run a); [|destruct (exits_ok h _)]; cbn [snd];
        intros Hc; try discriminate; injection Hc as <-.
      all: apply infix_of_singleton; find_infix ltac:(first [apply infix_of_refl | apply infix_of_hd1]).
Qed.

Lemma run_quiet_witness :
  quiet meta_call_ok = true /\
  (forall c, snd (run adb_host meta_call_ok) = Returned c -> "--quiet" ∈ c).
Proof. split; [reflexivity|]. apply (run_quiet adb_host meta_call_ok). reflexivity. Defined.

(** Lines 138-142: [run] raises [ValueError] only from the
    [meta_android_dir] test, so only when [meta_root_dir] is set and
    [meta_android_dir] is not a non-empty relative path, and only after an
    adb check that did not stop it. *)
Theorem run_value_error `{OverlayLib} (h : host) (a : run_args) (m : string)
    (Hv : snd (run h a) = ValueError m) :
  meta_ok a = false /\ m = meta_android_dir_error /\
  fst (run h a) = fst (adb_check h a) /\ snd (adb_check h a) = None.
Proof.
  destruct (run_value_error_cases h a m Hv) as (Hm & Hmsg & Hk).
  rewrite Hk. auto.
Qed.

Lemma run_value_error_witness :
  snd (run adb_host (meta_call false)) = ValueError meta_android_dir_error /\
  meta_ok (meta_call false) = false.
Proof.
  split; [vm_compute; reflexivity|].
  apply (run_value_error adb_host (meta_call false) meta_android_dir_error).
  vm_compute. reflexivity.
Defined.

(** Lines 166-174: [run] creates a directory only when [out_dir] is set,
    sits directly in the source directory, is not named [out] and does not
    exist yet, and then creates exactly [out_dir] (made absolute); this
    happens after both checks pass, also in a dry run. *)
Theorem run_makedirs `{OverlayLib} (h : host) (a : run_args) (d : string) :
  Makedirs d ∈ fst (run h a) <->
  snd (adb_check h a) = None /\ meta_ok a = true /\
  (exists o, out_dir a = Some o /\ String.eqb o "" = false /\ d = abspath (cwd h) o) /\
  dirname d = (if String.eqb (source_dir a) "" then source_dir a
               else abspath (cwd h) (source_dir a)) /\
  basename d <> "out" /\ path_exists h d = false.
Proof.
  split.
  - intros Hin.
    destruct (run_cases h a) as [[o [Hk Ho]]|[[Hk [Hm Ho]]|[tr0 [Hk Hm]]]].
    + exfalso. exact (adb_check_no_makedirs h a _ _ Hk _ Hin d eq_refl).
    + exfalso. exact (adb_check_no_makedirs h a _ _ Hk _ Hin d eq_refl).
    + rewrite Hk. split; [reflexivity|]. split; [exact Hm|].
      apply out_cond_iff. apply (run_makedirs_mem h a tr0 d Hk Hm), Hin.
  - intros (Hn & Hm & Hrest). destruct (adb_check h a) as [tr0 r] eqn:Hk.
    simpl in Hn. subst r. apply (run_makedirs_mem h a tr0 d Hk Hm).
    apply out_cond_iff, Hrest.
Qed.

(** Lines 176-207: once past the checks, the command bind-mounts the
    source directory at [/src] when no overlay is used, [out_dir] at
    [/src/out], [dist_dir] at [/dist] (and exports [DIST_DIR=/dist]), and
    under a [meta_root_dir] that directory at [/meta], the source directory
    at [/meta/<meta_android_dir>] and [out_dir] at
    [/meta/<meta_android_dir>/out]: a later mount point never replaces an
    earlier one. *)
Theorem run_bind_mounts `{OverlayLib} (h : host) (a : run_args) (tr0 : list event)
    (Hadb : adb_check h a = (tr0, None)) (Hmeta : meta_ok a = true) :
  let src := if String.eqb (source_dir a) "" then source_dir a
             else abspath (cwd h) (source_dir a) in
  let mad := default "" (meta_android_dir a) in
  exists cmd,
    (snd (run h a) = Returned cmd \/ snd (run h a) = CalledProcessError cmd) /\
    (truthy (overlay_config a) && path_exists h (default "" (overlay_config a)) = false ->
     mounts cmd src "/src") /\
    (forall o, out_dir a = Some o -> String.eqb o "" = false ->
     mounts cmd (abspath (cwd h) o) "/src/out") /\
    (forall dd, dist_dir a = Some dd -> String.eqb dd "" = false ->
     mounts cmd (abspath (cwd h) dd) "/dist" /\ infix_of ["--env"; "DIST_DIR=/dist"] cmd) /\
    (forall m, meta_root_dir a = Some m -> String.eqb m "" = false ->
     mounts cmd (abspath (cwd h) m) "/meta" /\
     mounts cmd src ("/meta/" ++ mad) /\
     (forall o, out_dir a = Some o -> String.eqb o "" = false ->
      mounts cmd (abspath (cwd h) o) (join "/meta" [mad; "out"]))).
Proof.
  intros src mad. subst src mad. open_run Hadb Hmeta.
  eexists. split; [run_outcome|].
  pose proof (meta_mad_rel (cwd h) a Hmeta) as Hmad.
  split; [|split; [|split]].
  - intros Hov. unfold mounts.
    find_infix ltac:(apply bindmount_in; apply final_mounts_src; [exact Hmad|];
                     rewrite Hov; by left).
  - intros o Ho E. unfold mounts. rewrite Ho, (abspath_if_Some _ _ E).
    find_infix ltac:(apply bindmount_in; apply final_mounts_out;
                     [exact Hmad|apply truthy_abspath]).
  - intros dd Hd E. rewrite Hd, (abspath_if_Some _ _ E). split.
    + unfold mounts.
      find_infix ltac:(apply bindmount_in; apply final_mounts_dist;
                       [exact Hmad|apply truthy_abspath]).
    + rewrite truthy_abspath.
      find_infix ltac:(first [apply infix_of_refl | apply infix_of_hd2]).
  - intros m Hr E.
    assert (Habs : isabs (default "" (meta_android_dir a)) = false).
    { apply (meta_mad_rel' a Hmeta). rewrite Hr. exact (truthy_Some_true _ E). }
    replace ("/meta/" ++ default "" (meta_android_dir a))
      with (join _META_MOUNT_POINT [default "" (meta_android_dir a)])
      by (rewrite join_meta by exact Habs; reflexivity).
    rewrite Hr, (abspath_if_Some _ _ E) in *. clear Hmad.
    assert (Hmad : truthy (Some (abspath (cwd h) m)) = true ->
                   isabs (default "" (meta_android_dir a)) = false) by (intros; exact Habs).
    split; [|split].
    + unfold mounts.
      find_infix ltac:(apply bindmount_in; apply final_mounts_meta;
                       [exact Hmad|apply truthy_abspath]).
    + unfold mounts.
      find_infix ltac:(apply bindmount_in; apply final_mounts_meta_src;
                       [exact Hmad|apply truthy_abspath]).
    + intros o Ho E'. unfold mounts. rewrite Ho, (abspath_if_Some _ _ E').
      find_infix ltac:(apply bindmount_in; apply final_mounts_meta_out;
                       [exact Hmad|apply truthy_abspath|apply truthy_abspath]).
Qed.

Lemma run_bind_mounts_witness :
  exists cmd, mounts cmd "/home/user/android" "/src" /\
              mounts cmd "/home/user/android/out2" "/src/out" /\
              mounts cmd "/home/user/android/meta" "/meta" /\
              mounts cmd "/home/user/android/out2" "/meta/LINUX/android/out".
Proof.
  destruct (run_bind_mounts adb_host meta_call_ok [] eq_refl eq_refl)
    as (cmd & _ & Hsrc & Hout & _ & Hmeta).
  destruct (Hmeta "meta" eq_refl eq_refl) as (Hroot & _ & Hmout).
  exists cmd. split; [exact (Hsrc eq_refl)|]. split; [exact (Hout "out2" eq_refl eq_refl)|].
  split; [exact Hroot|exact (Hmout "out2" eq_refl eq_refl)].
Defined.

(** Lines 159-162 and 209-226: once past the checks, the command carries
    the device mounts of [mount_local_device], every extra and read-only
    bind mount and every environment variable the caller gave, a non-empty
    [build_id] as [BUILD_NUMBER] and a non-zero [max_cpus] as
    [--max_cpus]. *)
Theorem run_passes_arguments `{OverlayLib} (h : host) (a : run_args) (tr0 : list event)
    (Hadb : adb_check h a = (tr0, None)) (Hmeta : meta_ok a = true) :
  exists cmd,
    (snd (run h a) = Returned cmd \/ snd (run h a) = CalledProcessError cmd) /\
    (mount_local_device a = true -> infix_of local_device_mounts cmd) /\
    (forall m, m ∈ extra_bind_mounts a -> infix_of ["--bindmount"; m] cmd) /\
    (forall m, m ∈ readonly_bind_mounts a -> infix_of ["--bindmount_ro"; m] cmd) /\
    (forall v, v ∈ env a -> infix_of ["--env"; v] cmd) /\
    (forall b, build_id a = Some b -> String.eqb b "" = false ->
     infix_of ["--env"; "BUILD_NUMBER=" ++ b] cmd) /\
    (forall n, max_cpus a = Some n -> n <> 0%Z ->
     infix_of ["--max_cpus=" ++ format_int n] cmd).
Proof.
  open_run Hadb Hmeta. eexists. split; [run_outcome|].
  split; [|split; [|split; [|split; [|split]]]].
  - intros Hd. rewrite Hd. find_infix ltac:(apply infix_of_refl).
  - intros m Hm.
    find_infix ltac:(apply (infix_of_flat_map' _ _ m); [exact Hm|reflexivity]).
  - intros m Hm.
    find_infix ltac:(apply (infix_of_flat_map' _ _ m); [exact Hm|reflexivity]).
  - intros v Hv.
    find_infix ltac:(apply (infix_of_flat_map' _ _ v); [exact Hv|reflexivity]).
  - intros b Hb E. rewrite Hb, (truthy_Some_true _ E).
    find_infix ltac:(first [apply infix_of_refl | apply infix_of_hd2]).
  - intros n Hn Hn0. rewrite Hn. apply Z.eqb_neq in Hn0. rewrite Hn0.
    find_infix ltac:(first [apply infix_of_refl | apply infix_of_hd1]).
Qed.

Lemma run_passes_arguments_witness :
  exists cmd, infix_of ["--env"; "BUILD_NUMBER=42"] cmd /\ infix_of ["--max_cpus=8"] cmd.
Proof.
  destruct (run_passes_arguments adb_host meta_call_ok [] eq_refl eq_refl)
    as (cmd & _ & _ & _ & _ & _ & Hb & Hn).
  exists cmd. split; [exact (Hb "42" eq_refl eq_refl)|].
  exact (Hn 8%Z eq_refl ltac:(discriminate)).
Defined.

(** Lines 110-121: when every answer is [y] (in any case), there are
    answers for all adb fork-server lines and [adb kill-server] succeeds,
    the loop never stops [run]: it reads one answer and runs
    [adb kill-server] once per fork-server line, and nothing else. *)
Theorem adb_prompt_loop_accepts (h : host) (lines inputs : list string)
    (Hy : Forall (fun ans => String.eqb (lower ans) "y" = true) inputs)
    (Hn : length (List.filter adb_fork_server_match lines) <= length inputs)
    (Hk : exits_ok h ["adb"; "kill-server"] = true) :
  snd (adb_prompt_loop h lines inputs) = None /\
  List.filter (fun e => match e with CheckCall _ | ReadInput => true | _ => false end)
    (fst (adb_prompt_loop h lines inputs)) =
  concat (repeat [ReadInput; CheckCall ["adb"; "kill-server"]]
                 (length (List.filter adb_fork_server_match lines))).
Proof.
  revert inputs Hy Hn. induction lines as [|line lines IH]; intros inputs Hy Hn;
    cbn [adb_prompt_loop List.filter]; [split; reflexivity|].
  cbn [List.filter] in Hn. destruct (adb_fork_server_match line).
  - destruct inputs as [|ans inputs]; [simpl in Hn; lia|].
    inversion Hy as [|? ? Ha Hy']; subst. rewrite Ha, Hk. cbv beta iota.
    simpl in Hn. destruct (IH inputs Hy' ltac:(lia)) as [IH1 IH2].
    destruct (adb_prompt_loop h lines inputs) as [tr r]. cbn [fst snd] in *.
    split; [exact IH1|]. simpl. rewrite IH2. reflexivity.
  - apply IH; assumption.
Qed.

Lemma adb_prompt_loop_accepts_witness :
  snd (adb_prompt_loop adb_host ["bash"; "adb -L tcp:5037 fork-server server --reply-fd 4"]
         ["Y"]) = None.
Proof.
  apply (adb_prompt_loop_accepts adb_host ["bash"; "adb -L tcp:5037 fork-server server --reply-fd 4"]
           ["Y"]).
  - constructor; [reflexivity|constructor].
  - simpl. lia.
  - reflexivity.
Defined.

(** Lines 113-119: at the first adb fork-server line, a missing answer
    raises [EOFError] and an answer other than [y] exits; either way the
    loop ends on the read, having run no subprocess. *)
Theorem adb_prompt_loop_stops (h : host) (pre : list string) (line : string)
    (rest inputs : list string)
    (Hpre : Forall (fun l => adb_fork_server_match l = false) pre)
    (Hline : adb_fork_server_match line = true)
    (Hno : forall ans inputs', inputs = ans :: inputs' -> String.eqb (lower ans) "y" = false) :
  snd (adb_prompt_loop h (pre ++ line :: rest) inputs) =
    Some (match inputs with [] => EOFError | _ => SystemExit end) /\
  (forall c, CheckCall c ∉ fst (adb_prompt_loop h (pre ++ line :: rest) inputs)) /\
  last (fst (adb_prompt_loop h (pre ++ line :: rest) inputs)) = Some ReadInput.
Proof.
  induction Hpre as [|l pre Hl Hpre IH]; cbn [app adb_prompt_loop].
  - rewrite Hline.
    destruct inputs as [|ans inputs]; [|rewrite (Hno ans inputs eq_refl)]; cbv beta iota;
      cbn [fst snd]; (split; [reflexivity|split; [intros c Hin; trace_cases Hin|reflexivity]]).
  - rewrite Hl. exact IH.
Qed.

Lemma adb_prompt_loop_stops_witness :
  snd (adb_prompt_loop adb_host
         (["bash"] ++ ["adb -L tcp:5037 fork-server server --reply-fd 4"]) ["n"]) =
  Some SystemExit.
Proof.
  apply (proj1 (adb_prompt_loop_stops adb_host ["bash"]
                  "adb -L tcp:5037 fork-server server --reply-fd 4" [] ["n"]
                  ltac:(constructor; [reflexivity|constructor]) eq_refl
                  ltac:(intros ans inputs' [= <- _]; reflexivity))).
Defined.

End RunExtras.

(** ** The OrderedDict of mount points and the path helpers *)

Module DictFacts.
Import PosixPath NsJail.

Lemma od_set_keys d k v :
  map fst (od_set d k v) =
  if bool_decide (k ∈ map fst d) then map fst d else (map fst d ++ [k])%list.
Proof.
  induction d as [|[k' v'] d IH]; cbn [od_set map fst].
  - rewrite bool_decide_false; [reflexivity|apply not_elem_of_nil].
  - destruct (String.eqb k' k) eqn:E.
    + apply String.eqb_eq in E. subst k'. rewrite bool_decide_true by (by left).
      reflexivity.
    + apply String.eqb_neq in E. cbn [map fst]. rewrite IH.
      case_bool_decide as Hin; case_bool_decide as Hin'; try reflexivity.
      * exfalso. apply Hin'. by right.
      * exfalso. apply elem_of_cons in Hin' as [->|Hin']; [congruence|auto].
Qed.

Lemma od_set_other d k v k' v' :
  k' <> k -> (k', v') ∈ od_set d k v <-> (k', v') ∈ d.
Proof.
  intros Hne. induction d as [|[k'' v''] d IH]; cbn [od_set].
  - rewrite elem_of_cons. split; [intros [[= -> _]|Hin]; [congruence|exact Hin]|].
    intros Hin. apply elem_of_nil in Hin as [].
  - destruct (String.eqb k'' k) eqn:E.
    + apply String.eqb_eq in E. subst k''. rewrite !elem_of_cons.
      split; (intros [[= -> ->]|Hin]; [congruence|by right]).
    + rewrite !elem_of_cons, IH. reflexivity.
Qed.

Lemma od_set_value d k v v' :
  NoDup (map fst d) -> (k, v') ∈ od_set d k v -> v' = v.
Proof.
  induction d as [|[k'' v''] d IH]; cbn [od_set map fst]; intros Hnd Hin.
  - apply elem_of_cons in Hin as [[= ->]|Hin]; [reflexivity|apply elem_of_nil in Hin as []].
  - apply NoDup_cons in Hnd as [Hnot Hnd].
    destruct (String.eqb k'' k) eqn:E.
    + apply String.eqb_eq in E. subst k''.
      apply elem_of_cons in Hin as [[= ->]|Hin]; [reflexivity|].
      exfalso. apply Hnot. apply list_elem_of_In.
      apply (in_map fst _ (k, v')). apply list_elem_of_In, Hin.
    + apply String.eqb_neq in E.
      apply elem_of_cons in Hin as [[= -> _]|Hin]; [congruence|auto].
Qed.

(** [bind_mounts[dest] = source] on the OrderedDict of lines 176-202:
    keys stay distinct, the key maps to the new source, other entries are
    untouched, and a new key goes last while an existing key keeps its
    place. *)
Theorem od_set_ordered_dict (d : list (string * string)) (k v : string)
    (Hnd : NoDup (map fst d)) :
  NoDup (map fst (od_set d k v)) /\
  (forall v', (k, v') ∈ od_set d k v <-> v' = v) /\
  (forall k' v', k' <> k -> ((k', v') ∈ od_set d k v <-> (k', v') ∈ d)) /\
  map fst (od_set d k v) =
    (if bool_decide (k ∈ map fst d) then map fst d else (map fst d ++ [k])%list).
Proof.
  split; [|split; [|split]].
  - rewrite od_set_keys. case_bool_decide as Hin; [exact Hnd|].
    apply NoDup_app. split; [exact Hnd|]. split; [|apply NoDup_singleton].
    intros x Hx Hx'. apply list_elem_of_singleton in Hx'. subst x. contradiction.
  - intros v'. split; [apply od_set_value, Hnd|intros ->; apply RunFacts.od_set_in].
  - intros k' v'. apply od_set_other.
  - apply od_set_keys.
Qed.

Lemma od_set_ordered_dict_witness :
  map fst (od_set [("/src", "/home/user/android")] "/src/out" "/home/user/out") =
  ["/src"; "/src/out"].
Proof.
  destruct (od_set_ordered_dict [("/src", "/home/user/android")] "/src/out" "/home/user/out"
              ltac:(constructor; [apply not_elem_of_nil|constructor])) as (_ & _ & _ & ->).
  reflexivity.
Defined.

Lemma startswith_nil t : startswith t "" = true.
Proof. destruct t; reflexivity. Qed.

Lemma startswith_slash_app s x : startswith s "/" = true -> startswith (s ++ x) "/" = true.
Proof.
  destruct s as [|c s]; [discriminate|]. intros H.
  change (startswith (String c (s ++ x)) "/" = true).
  simpl in *. rewrite startswith_nil in *. exact H.
Qed.

Lemma startswith_slash_cons t : startswith (String slash t) "/" = true.
Proof. simpl. rewrite startswith_nil. reflexivity. Qed.

Lemma slashes_app_S n J : slashes (S n) ++ J = String slash (slashes n ++ J).
Proof. reflexivity. Qed.

Lemma normpath_isabs p : isabs p = true -> isabs (normpath p) = true.
Proof.
  unfold normpath, isabs. intros H.
  destruct (String.eqb p "") eqn:E; [apply String.eqb_eq in E; subst p; discriminate|].
  rewrite H. destruct (startswith p "//" && negb (startswith p "///"));
    rewrite slashes_app_S; cbn [String.eqb]; apply startswith_slash_cons.
Qed.

(** [os.path.abspath] (lines 123-131) gives an absolute path when the
    working directory or the path is absolute. *)
Theorem abspath_isabs (cwd p : string) (Habs : isabs cwd = true \/ isabs p = true) :
  isabs (abspath cwd p) = true.
Proof.
  unfold abspath. apply normpath_isabs.
  destruct (isabs p) eqn:Hp; [exact Hp|]. destruct Habs as [Hcwd|]; [|congruence].
  unfold join2. unfold isabs in Hp, Hcwd |- *. rewrite Hp.
  destruct (String.eqb cwd "" || endswith_slash cwd); apply startswith_slash_app, Hcwd.
Qed.

Lemma abspath_isabs_witness : isabs (abspath "/home/user/android" "out2") = true.
Proof. apply abspath_isabs. left. reflexivity. Defined.

End DictFacts.

(** ** run_with_args, str.split and the chroot mounts *)

Module ArgsFacts.
Import PosixPath NsJail NsJailData NsJailFacts RunFacts.

(** Lines 355-384: with the default [meta_root_dir] of [parse_args]
    (the empty string) [run_with_args] never raises [ValueError]. *)
Theorem run_with_args_no_value_error `{OverlayLib} (h : host) (args : namespace)
    (Hroot : ns_meta_root_dir args = "") :
  forall m, snd (run_with_args h args) <> Some (ValueError m).
Proof.
  intros m. unfold run_with_args.
  destruct (run h (run_args_of args)) as [tr o] eqn:Hr. cbn [snd].
  destruct o as [c|msg| | |c]; try discriminate. intros [= ->].
  destruct (run_value_error_cases h (run_args_of args) m) as [Hm _]; [rewrite Hr; reflexivity|].
  unfold meta_ok in Hm. cbn [meta_root_dir run_args_of] in Hm. rewrite Hroot in Hm.
  discriminate.
Qed.

Lemma run_with_args_no_value_error_witness :
  snd (run_with_args chroot_host sample_args) <> Some (ValueError meta_android_dir_error).
Proof. apply (run_with_args_no_value_error chroot_host sample_args). reflexivity. Defined.

(** Lines 366-384: once past the checks, [run_with_args] returns [None]
    or raises [CalledProcessError] for the nsjail command, which ends with
    [--] and the words of [args.command]; without [--dry_run] that command
    is the last thing it runs. *)
Theorem run_with_args_command `{OverlayLib} (h : host) (args : namespace) (tr0 : list event)
    (Hadb : adb_check h (run_args_of args) = (tr0, None))
    (Hmeta : meta_ok (run_args_of args) = true) :
  exists cmd,
    (snd (run_with_args h args) = None \/
     snd (run_with_args h args) = Some (CalledProcessError cmd)) /\
    ("--" :: split_ws (ns_command args)) `suffix_of` cmd /\
    (ns_dry_run args = false -> last (fst (run_with_args h args)) = Some (CheckCall cmd)).
Proof.
  unfold run_with_args. open_run Hadb Hmeta.
  match goal with |- context [Returned ?c] => exists c end.
  split; [|split].
  - destruct (dry_run (run_args_of args)); [|destruct (exits_ok h _)];
      cbv beta iota; cbn [snd]; auto.
  - repeat first [reflexivity | apply suffix_app_r].
  - intros Hd. assert (Hd' : dry_run (run_args_of args) = false) by exact Hd.
    rewrite Hd'. cbv beta iota. cbn [fst]. apply last_snoc.
Qed.

Lemma run_with_args_command_witness :
  exists cmd, ["--"; "make"; "-j8"; "droid"] `suffix_of` cmd.
Proof.
  destruct (run_with_args_command chroot_host sample_args [] eq_refl eq_refl)
    as (cmd & _ & Hs & _).
  exists cmd. exact Hs.
Defined.

Lemma list_ascii_app a b :
  list_ascii_of_string (a ++ b) = (list_ascii_of_string a ++ list_ascii_of_string b)%list.
Proof.
  induction a as [|c a IH]; [reflexivity|].
  change (c :: list_ascii_of_string (a ++ b) =
          c :: (list_ascii_of_string a ++ list_ascii_of_string b))%list.
  rewrite IH. reflexivity.
Qed.

Lemma split_ws_from_words s cur :
  Forall (fun c => is_space c = false) (list_ascii_of_string cur) ->
  (forall w, w ∈ split_ws_from s cur ->
             w <> "" /\ Forall (fun c => is_space c = false) (list_ascii_of_string w)) /\
  flat_map list_ascii_of_string (split_ws_from s cur) =
  (list_ascii_of_string cur ++
   List.filter (fun c => negb (is_space c)) (list_ascii_of_string s))%list.
Proof.
  revert cur. induction s as [|c s IH]; intros cur Hcur; cbn [split_ws_from].
  - destruct (String.eqb cur "") eqn:E.
    + apply String.eqb_eq in E. subst cur.
      split; [intros w Hw; apply elem_of_nil in Hw as []|reflexivity].
    + apply String.eqb_neq in E. split.
      * intros w Hw. apply elem_of_cons in Hw as [->|Hw]; [auto|apply elem_of_nil in Hw as []].
      * cbn [flat_map List.filter list_ascii_of_string]. rewrite !app_nil_r. reflexivity.
  - cbn [list_ascii_of_string List.filter]. destruct (is_space c) eqn:Hc.
    + destruct (IH "" (List.Forall_nil _)) as [IH1 IH2]. split.
      * intros w Hw. apply elem_of_app in Hw as [Hw|Hw]; [|auto].
        destruct (String.eqb cur "") eqn:E; [apply elem_of_nil in Hw as []|].
        apply String.eqb_neq in E.
        apply elem_of_cons in Hw as [->|Hw]; [auto|apply elem_of_nil in Hw as []].
      * rewrite flat_map_app, IH2. cbn [negb].
        destruct (String.eqb cur "") eqn:E.
        -- apply String.eqb_eq in E. subst cur. reflexivity.
        -- cbn [flat_map]. rewrite app_nil_r. reflexivity.
    + destruct (IH (cur ++ String c "")) as [IH1 IH2].
      { rewrite list_ascii_app. apply Forall_app. split; [exact Hcur|].
        constructor; [exact Hc|constructor]. }
      split; [exact IH1|]. rewrite IH2, list_ascii_app. cbn [negb].
      rewrite <- app_assoc. reflexivity.
Qed.

(** [str.split()] (line 370): every word is non-empty and free of
    whitespace, and the words put together are the string with its
    whitespace removed. *)
Theorem split_ws_words (s : string) :
  (forall w, w ∈ split_ws s ->
             w <> "" /\ Forall (fun c => is_space c = false) (list_ascii_of_string w)) /\
  flat_map list_ascii_of_string (split_ws s) =
  List.filter (fun c => negb (is_space c)) (list_ascii_of_string s).
Proof. exact (split_ws_from_words s "" (List.Forall_nil _)). Qed.

Lemma not_suffix (l1 l2 : list ascii) :
  bool_decide (l1 `suffix_of` l2) = false -> ~ l1 `suffix_of` l2.
Proof. apply bool_decide_eq_false. Qed.

Lemma chroot_mounts_elems h c x :
  x ∈ chroot_mounts h c ->
  x = "--bindmount_ro" \/
  exists m, m ∈ _CHROOT_MOUNT_POINTS /\ path_exists h (join c [m]) = true /\
            x = join c [m] ++ ":" ++ join "/" [m].
Proof.
  unfold chroot_mounts. intros Hin. apply list_elem_of_In, in_flat_map in Hin as [m [Hm Hx]].
  destruct (path_exists h (join c [m])) eqn:E; [|contradiction].
  destruct Hx as [<-|[<-|[]]]; [by left|right].
  exists m. split; [apply list_elem_of_In, Hm|auto].
Qed.

(** Lines 40-46 and 149-157: the chroot mounts are read-only mounts of
    existing entries of [_CHROOT_MOUNT_POINTS] at the same path under
    [/]; as the list literal lacks a comma between ['etc/default'] and
    ['etc/perl'], nothing is ever mounted at [/etc/default] or
    [/etc/perl]. *)
Theorem chroot_mounts_paths (h : host) (c x : string) :
  x ∈ chroot_mounts h c ->
  (x = "--bindmount_ro" \/
   exists m, m ∈ _CHROOT_MOUNT_POINTS /\ path_exists h (join c [m]) = true /\
             x = join c [m] ++ ":" ++ join "/" [m]) /\
  (forall s, x <> s ++ ":/etc/perl" /\ x <> s ++ ":/etc/default").
Proof.
  intros Hin. pose proof (chroot_mounts_elems h c x Hin) as Hx. split; [exact Hx|].
  intros s.
  assert (Hsuf : forall t, x = s ++ t ->
            list_ascii_of_string t `suffix_of` list_ascii_of_string x).
  { intros t ->. rewrite list_ascii_app. apply suffix_app_r. reflexivity. }
  destruct Hx as [->|(m & Hm & _ & ->)].
  - split; intros Heq; apply Hsuf in Heq; revert Heq; apply not_suffix; vm_compute;
      reflexivity.
  - assert (Hsuf' : list_ascii_of_string (":" ++ join "/" [m]) `suffix_of`
                    list_ascii_of_string (join c [m] ++ ":" ++ join "/" [m])).
    { rewrite (list_ascii_app (join c [m])). apply suffix_app_r. reflexivity. }
    unfold _CHROOT_MOUNT_POINTS in Hm.
    repeat (apply elem_of_cons in Hm as [->|Hm]); [..|apply elem_of_nil in Hm as []];
      split; intros Heq; apply Hsuf in Heq;
      destruct (suffix_weak_total _ _ _ Heq Hsuf') as [Hs|Hs]; revert Hs;
      apply not_suffix; vm_compute; reflexivity.
Qed.

Lemma chroot_mounts_paths_witness :
  "/chroot/bin:/bin" ∈ chroot_mounts chroot_host "/chroot" /\
  (forall s, "/chroot/bin:/bin" <> s ++ ":/etc/perl").
Proof.
  assert (Hin : "/chroot/bin:/bin" ∈ chroot_mounts chroot_host "/chroot").
  { apply list_elem_of_In. vm_compute. right. left. reflexivity. }
  split; [exact Hin|]. intros s.
  exact (proj1 (proj2 (chroot_mounts_paths chroot_host "/chroot" _ Hin) s)).
Defined.

End ArgsFacts.
